(** * Invoice server actions (app/lib/actions.ts)

    A shallow embedding of the two versions of [createInvoice],
    [updateInvoice] and [deleteInvoice] found in [app/lib/actions.ts],
    together with the parts of their collaborators that the handlers
    rely on: JavaScript numbers and dates, the zod (version 3) schema
    combinators used by [FormSchema], the [invoices] table behind the
    [sql] template tag, and the Next.js [revalidatePath] / [redirect]
    calls.

    Numbers are IEEE 754 doubles, computed with the Standard Library's
    [SpecFloat]. A handler runs in a monad that threads the table and the
    list of observable calls, and completes normally, by [return], or by
    throwing. Whether the database rejects a statement, the clock, and the
    identifier of a new row are parameters of a run ([Env]). *)

From Stdlib Require Import ZArith Ascii String List Lia.
From Stdlib Require Import SpecFloat.
From stdpp Require Import base option list strings gmap.

Local Open Scope string_scope.
Local Open Scope Z_scope.

(** ** JavaScript values used by the handlers *)

Module JS.

(** *** Numbers: IEEE 754 binary64, round to nearest even *)

Definition number : Type := spec_float.

Definition prec : Z := 53.
Definition emax : Z := 1024.

Definition NaN : number := S754_nan.
Definition Infinity (neg : bool) : number := S754_infinity neg.
Definition zero (neg : bool) : number := S754_zero neg.

(** An integer literal of the source, as the nearest double. *)
Definition of_Z (z : Z) : number := binary_normalize prec emax z 0 false.

(** [x * y] *)
Definition mul (x y : number) : number := SFmul prec emax x y.

(** [x <= y], [x < y] and [Number.isNaN] *)
Definition leb (x y : number) : bool := SFleb x y.
Definition ltb (x y : number) : bool := SFltb x y.
Definition isNaN (x : number) : bool :=
  match x with S754_nan => true | _ => false end.

(** The double nearest to [m * 10^e], for a decimal literal with digits
    [m] and decimal exponent [e]. *)
Definition of_decimal (neg : bool) (m : N) (e : Z) : number :=
  match m with
  | N0 => zero neg
  | Npos p =>
      if 0 <=? e then binary_round prec emax neg (p * Z.to_pos (10 ^ e)) 0
      else
        let '(q, e', l) :=
          SFdiv_core_binary prec emax (Zpos p) 0 (10 ^ (- e)) 0 in
        binary_round_aux prec emax neg q e' l
  end.

(** *** [StringToNumber]: what [Number(s)] computes for a string *)

(** Strings hold the UTF-8 encoding of the JavaScript string. The white
    space trimmed is [StrWhiteSpaceChar]: the code points TAB, LF, VT, FF,
    CR and SP, which take one byte; U+00A0, which takes two; and U+1680,
    U+2000 to U+200A, U+2028, U+2029, U+202F, U+205F, U+3000 and U+FEFF,
    which take three. *)
Definition is_white_space (c : ascii) : bool :=
  let n := nat_of_ascii c in
  ((9 <=? n) && (n <=? 13) || (n =? 32))%nat.

Definition is_white_space2 (a b : ascii) : bool :=
  ((nat_of_ascii a =? 194) && (nat_of_ascii b =? 160))%nat.

Definition is_white_space3 (a b c : ascii) : bool :=
  let x := nat_of_ascii a in
  let y := nat_of_ascii b in
  let z := nat_of_ascii c in
  ((x =? 225) && (y =? 154) && (z =? 128)
   || (x =? 226) && (y =? 128)
      && ((128 <=? z) && (z <=? 138) || (z =? 168) || (z =? 169) || (z =? 175))
   || (x =? 226) && (y =? 129) && (z =? 159)
   || (x =? 227) && (y =? 128) && (z =? 128)
   || (x =? 239) && (y =? 187) && (z =? 191))%nat.

Fixpoint trim_start (s : string) : string :=
  match s with
  | String a r =>
      if is_white_space a then trim_start r
      else
        match r with
        | String b r2 =>
            if is_white_space2 a b then trim_start r2
            else
              match r2 with
              | String c r3 =>
                  if is_white_space3 a b c then trim_start r3 else s
              | EmptyString => s
              end
        | EmptyString => s
        end
  | EmptyString => EmptyString
  end.

(** The string is cut where what remains is white space only. *)
Fixpoint trim_end (s : string) : string :=
  match s with
  | String c r =>
      match trim_start s with
      | EmptyString => EmptyString
      | _ => String c (trim_end r)
      end
  | EmptyString => EmptyString
  end.

Definition trim (s : string) : string := trim_end (trim_start s).

(** Value of a digit in the given radix, if [c] is one. *)
Definition digit_value (radix : N) (c : ascii) : option N :=
  let n := N_of_ascii c in
  let v :=
    (if (48 <=? n) && (n <=? 57) then Some (n - 48)
     else if (97 <=? n) && (n <=? 102) then Some (n - 87)
     else if (65 <=? n) && (n <=? 70) then Some (n - 55)
     else None)%N in
  match v with
  | Some d => if (d <? radix)%N then Some d else None
  | None => None
  end.

(** Reads the longest run of digits: the accumulated value, how many
    digits were read, and the rest of the string. *)
Fixpoint read_digits (radix : N) (s : string) (acc : N) (count : nat)
  : N * nat * string :=
  match s with
  | String c r =>
      match digit_value radix c with
      | Some d => read_digits radix r (acc * radix + d)%N (S count)
      | None => (acc, count, s)
      end
  | EmptyString => (acc, count, s)
  end.

(** [ExponentPart], when present, must reach the end of the string. *)
Definition read_exponent (s : string) : option Z :=
  match s with
  | EmptyString => Some 0
  | String c r =>
      if (Ascii.eqb c "e" || Ascii.eqb c "E")%char then
        let '(neg, r1) :=
          match r with
          | String "-" r' => (true, r')
          | String "+" r' => (false, r')
          | _ => (false, r)
          end in
        match read_digits 10 r1 0 0 with
        | (_, O, _) => None
        | (v, _, EmptyString) => Some (if neg then - Z.of_N v else Z.of_N v)
        | _ => None
        end
      else None
  end.

(** [StrUnsignedDecimalLiteral] other than [Infinity]: digits and
    decimal exponent. *)
Definition read_unsigned_decimal (s : string) : option (N * Z) :=
  let '(ip, n1, r1) := read_digits 10 s 0 0 in
  match r1 with
  | String "." r2 =>
      let '(m, n2, r3) := read_digits 10 r2 ip 0 in
      if (n1 + n2 =? 0)%nat then None
      else
        match read_exponent r3 with
        | Some e => Some (m, e - Z.of_nat n2)
        | None => None
        end
  | _ =>
      if (n1 =? 0)%nat then None
      else
        match read_exponent r1 with
        | Some e => Some (ip, e)
        | None => None
        end
  end.

Definition read_decimal (s : string) : number :=
  let '(neg, r) :=
    match s with
    | String "-" r' => (true, r')
    | String "+" r' => (false, r')
    | _ => (false, s)
    end in
  if String.eqb r "Infinity" then Infinity neg
  else
    match read_unsigned_decimal r with
    | Some (m, e) => of_decimal neg m e
    | None => NaN
    end.

(** [NonDecimalIntegerLiteral]: [0x], [0o] and [0b] prefixes, unsigned. *)
Definition read_non_decimal (s : string) : option number :=
  match s with
  | String "0" (String p r) =>
      let radix :=
        if (Ascii.eqb p "x" || Ascii.eqb p "X")%char then Some 16%N
        else if (Ascii.eqb p "o" || Ascii.eqb p "O")%char then Some 8%N
        else if (Ascii.eqb p "b" || Ascii.eqb p "B")%char then Some 2%N
        else None in
      match radix with
      | Some b =>
          match read_digits b r 0 0 with
          | (_, O, _) => None
          | (v, _, EmptyString) => Some (of_Z (Z.of_N v))
          | _ => None
          end
      | None => None
      end
  | _ => None
  end.

Definition StringToNumber (s : string) : number :=
  match trim s with
  | EmptyString => zero false
  | t =>
      match read_non_decimal t with
      | Some n => n
      | None => read_decimal t
      end
  end.

(** *** Form values: [FormDataEntryValue | null] *)

Inductive value : Type :=
| Null
| Str (s : string)
| File (name : string).

(** [typeof v] *)
Definition typeof (v : value) : string :=
  match v with
  | Str _ => "string"
  | Null | File _ => "object"
  end.

(** [Number(v)]: [null] is [+0], a string goes through
    [StringToNumber], and a [File] object (whose primitive is the string
    ["[object File]"]) is [NaN]. *)
Definition ToNumber (v : value) : number :=
  match v with
  | Null => zero false
  | Str s => StringToNumber s
  | File _ => NaN
  end.

(** [FormData]: an ordered list of entries; [get] returns the first
    value stored under the name, or [null]. *)
Definition FormData : Type := list (string * value).

Fixpoint get (formData : FormData) (name : string) : value :=
  match formData with
  | [] => Null
  | (k, v) :: rest => if String.eqb k name then v else get rest name
  end.

(** *** Dates: [new Date().toISOString()] and [String.prototype.split] *)

Definition msPerDay : Z := 86400000.

(** Day number since 1970-01-01 to proleptic Gregorian (year, month,
    day), month and day counted from 1. *)
Definition civil_from_days (day : Z) : Z * Z * Z :=
  let z := day + 719468 in
  let era := z / 146097 in
  let doe := z - era * 146097 in
  let yoe := (doe - doe / 1460 + doe / 36524 - doe / 146096) / 365 in
  let doy := doe - (365 * yoe + yoe / 4 - yoe / 100) in
  let mp := (5 * doy + 2) / 153 in
  let d := doy - (153 * mp + 2) / 5 + 1 in
  let m := if mp <? 10 then mp + 3 else mp - 9 in
  let y := yoe + era * 400 in
  (if m <=? 2 then y + 1 else y, m, d).

Definition digit_char (d : Z) : ascii := ascii_of_N (Z.to_N (48 + d mod 10)).

(** The last [width] decimal digits of [n], most significant first. *)
Fixpoint pad (width : nat) (n : Z) : string :=
  match width with
  | O => EmptyString
  | S w => pad w (n / 10) ++ String (digit_char n) EmptyString
  end.

(** Four digits for the years 0 to 9999, otherwise a sign and six. *)
Definition year_string (y : Z) : string :=
  if (0 <=? y) && (y <=? 9999) then pad 4 y
  else String (if y <? 0 then "-"%char else "+"%char) (pad 6 (Z.abs y)).

Definition date_string (t : Z) : string :=
  let '(y, m, d) := civil_from_days (t / msPerDay) in
  year_string y ++ "-" ++ pad 2 m ++ "-" ++ pad 2 d.

Definition time_string (t : Z) : string :=
  let ms := t mod msPerDay in
  pad 2 (ms / 3600000) ++ ":" ++ pad 2 (ms / 60000 mod 60) ++ ":"
    ++ pad 2 (ms / 1000 mod 60) ++ "." ++ pad 3 (ms mod 1000).

(** [new Date(t).toISOString()], [t] in milliseconds since the epoch. *)
Definition toISOString (t : Z) : string :=
  date_string t ++ "T" ++ time_string t ++ "Z".

(** [s.split(sep)] for a one-character separator. *)
Fixpoint split (sep : ascii) (s : string) : list string :=
  match s with
  | EmptyString => [EmptyString]
  | String c r =>
      if Ascii.eqb c sep then EmptyString :: split sep r
      else
        match split sep r with
        | h :: t => String c h :: t
        | [] => [String c EmptyString]
        end
  end.

End JS.

(** ** The zod combinators used by [FormSchema] *)

Module Zod.
Import JS.

Inductive ZodIssueCode : Type :=
| invalid_type
| invalid_enum_value
| too_small.

Record ZodIssue : Type := {
  code : ZodIssueCode;
  path : list string;
  message : string
}.

(** Outcome of parsing one value: the typed value, or the issues found. *)
Inductive ParseReturn (A : Type) : Type :=
| OK (data : A)
| INVALID (issues : list ZodIssue).
Arguments OK {A} data.
Arguments INVALID {A} issues.

(** A schema parses the value found at a path. *)
Definition ZodType (A : Type) : Type := list string -> value -> ParseReturn A.

(** [getParsedType] on a form value. *)
Definition getParsedType (v : value) : string :=
  match v with
  | Null => "null"
  | Str _ => "string"
  | File _ => "object"
  end.

(** [z.string({ invalid_type_error })]: any string is accepted, the
    empty one included; only the type is checked. *)
Definition string_ (invalid_type_error : option string) : ZodType string :=
  fun p v =>
    match v with
    | Str s => OK s
    | _ =>
        INVALID [ {| code := invalid_type; path := p;
                     message := default ("Expected string, received " ++ getParsedType v)
                                  invalid_type_error |} ]
    end.

(** A [.gt(value, { message })] check of a number schema. *)
Record NumberCheck : Type := gt { gt_value : number; gt_message : string }.

Definition run_check (p : list string) (n : number) (c : NumberCheck)
  : list ZodIssue :=
  if leb n (gt_value c)
  then [ {| code := too_small; path := p; message := gt_message c |} ]
  else [].

(** [z.coerce.number()] followed by its checks: the input is replaced by
    [Number(input)]; [NaN] is a type error, and otherwise every check
    runs. *)
Definition coerce_number (checks : list NumberCheck) : ZodType number :=
  fun p v =>
    let n := ToNumber v in
    if isNaN n then
      INVALID [ {| code := invalid_type; path := p;
                   message := "Expected number, received nan" |} ]
    else
      match concat (map (run_check p n) checks) with
      | [] => OK n
      | issues => INVALID issues
      end.

(** [util.joinValues]: ['a' | 'b'] *)
Fixpoint joinValues (values : list string) : string :=
  match values with
  | [] => ""
  | [x] => "'" ++ x ++ "'"
  | x :: rest => "'" ++ x ++ "' | " ++ joinValues rest
  end.

Definition includes (values : list string) (s : string) : bool :=
  existsb (String.eqb s) values.

(** [z.enum(values, { invalid_type_error })] *)
Definition enum (values : list string) (invalid_type_error : option string)
  : ZodType string :=
  fun p v =>
    match v with
    | Str s =>
        if includes values s then OK s
        else
          INVALID [ {| code := invalid_enum_value; path := p;
                       message := "Invalid enum value. Expected " ++ joinValues values
                                    ++ ", received '" ++ s ++ "'" |} ]
    | _ =>
        INVALID [ {| code := invalid_type; path := p;
                     message := default ("Expected " ++ joinValues values
                                           ++ ", received " ++ getParsedType v)
                                  invalid_type_error |} ]
    end.

(** The object schema of the source, [z.object({ id, customerId, amount,
    status, date })]. *)
Record InvoiceObject : Type := {
  id : ZodType string;
  customerId : ZodType string;
  amount : ZodType number;
  status : ZodType string;
  date : ZodType string
}.

(** The schema left by [.omit({ id: true, date: true })]. *)
Record InvoiceFields : Type := {
  f_customerId : ZodType string;
  f_amount : ZodType number;
  f_status : ZodType string
}.

Definition omit_id_date (s : InvoiceObject) : InvoiceFields :=
  {| f_customerId := customerId s; f_amount := amount s; f_status := status s |}.

(** The object literal handed to the parser, and the typed record that
    comes out. *)
Record RawFormData : Type := {
  raw_customerId : value;
  raw_amount : value;
  raw_status : value
}.

Record InvoiceData : Type := {
  d_customerId : string;
  d_amount : number;
  d_status : string
}.

Definition issues_of {A} (r : ParseReturn A) : list ZodIssue :=
  match r with OK _ => [] | INVALID l => l end.

Inductive SafeParseReturnType : Type :=
| SafeParseSuccess (data : InvoiceData)
| SafeParseError (error : list ZodIssue).

(** [schema.safeParse(raw)]: every key is parsed, in the order of the
    shape, and the issues of all keys are collected. *)
Definition safeParse (schema : InvoiceFields) (raw : RawFormData)
  : SafeParseReturnType :=
  let c := f_customerId schema ["customerId"] (raw_customerId raw) in
  let a := f_amount schema ["amount"] (raw_amount raw) in
  let s := f_status schema ["status"] (raw_status raw) in
  match c, a, s with
  | OK c', OK a', OK s' =>
      SafeParseSuccess {| d_customerId := c'; d_amount := a'; d_status := s' |}
  | _, _, _ => SafeParseError (issues_of c ++ issues_of a ++ issues_of s)%list
  end.

(** [error.flatten().fieldErrors]: the messages of the issues, grouped
    under the first element of their path. *)
Definition add_field_error (acc : gmap string (list string)) (i : ZodIssue)
  : gmap string (list string) :=
  match path i with
  | [] => acc
  | k :: _ => <[ k := (default [] (acc !! k) ++ [message i])%list ]> acc
  end.

Definition fieldErrors (error : list ZodIssue) : gmap string (list string) :=
  fold_left add_field_error error ∅.

End Zod.

(** ** The server: the [invoices] table, the effects of a handler, and
       the monad in which the handlers are written *)

Module Server.
Import JS Zod.

(** A row of [invoices]. The [id] column is assigned by the store. *)
Record Invoice : Type := {
  id : string;
  customer_id : string;
  amount : number;
  status : string;
  date : string
}.

(** The three statements the handlers send, with their parameters. *)
Inductive Statement : Type :=
| INSERT (customer_id : string) (amount : number) (status : string) (date : string)
| UPDATE (customer_id : string) (amount : number) (status : string) (id : string)
| DELETE (id : string).

(** What a handler can throw: a failed [parse], a failed statement, or
    the signal that [redirect] raises. *)
Inductive Error : Type :=
| ZodError (issues : list ZodIssue)
| PostgresError (message : string)
| NEXT_REDIRECT (url : string).

(** The form state a handler returns ([export type State]). *)
Record State : Type := {
  errors : option (gmap string (list string));
  message : option string
}.

Inductive LogArg : Type :=
| LogObject (raw : RawFormData)
| LogString (s : string).

(** The calls observable from outside a handler, in the order made. *)
Inductive Effect : Type :=
| Log (a : LogArg)
| LogError (e : Error)
| Query (q : Statement)
| Revalidate (path : string)
| Navigate (url : string).

(** What a request does not control: the clock, whether the database
    rejects a statement, and the identifier given to a new row. *)
Record Env : Type := {
  now : Z;
  db_error : Statement -> list Invoice -> option string;
  new_id : list Invoice -> string
}.

Record World : Type := {
  invoices : list Invoice;
  trace : list Effect
}.

Definition emit (e : Effect) (w : World) : World :=
  {| invoices := invoices w; trace := (trace w ++ [e])%list |}.

Definition set_columns (c : string) (a : number) (s : string) (r : Invoice)
  : Invoice :=
  {| id := id r; customer_id := c; amount := a; status := s; date := date r |}.

(** The table after a statement that the database accepted. *)
Definition exec (fresh : list Invoice -> string) (q : Statement)
  (table : list Invoice) : list Invoice :=
  match q with
  | INSERT c a s d =>
      (table ++ [ {| id := fresh table; customer_id := c; amount := a;
                     status := s; date := d |} ])%list
  | UPDATE c a s i =>
      map (fun r => if String.eqb (id r) i then set_columns c a s r else r) table
  | DELETE i =>
      List.filter (fun r => negb (String.eqb (id r) i)) table
  end.

(** *** Completions *)

Inductive Completion (R A : Type) : Type :=
| Normal (a : A)
| Return (r : R)
| Throw (e : Error).
Arguments Normal {R A} a.
Arguments Return {R A} r.
Arguments Throw {R A} e.

(** Code inside a function whose [return] statements carry an [R]. *)
Definition M (R A : Type) : Type := Env -> World -> Completion R A * World.

#[export] Instance M_ret {R} : MRet (M R) :=
  fun A a _ w => (Normal a, w).

#[export] Instance M_bind {R} : MBind (M R) :=
  fun A B f m env w =>
    match m env w with
    | (Normal a, w') => f a env w'
    | (Return r, w') => (Return r, w')
    | (Throw e, w') => (Throw e, w')
    end.

#[export] Instance M_throw {R} : MThrow Error (M R) :=
  fun A e _ w => (Throw e, w).

(** [return r;] *)
Definition return_ {R A} (r : R) : M R A := fun _ w => (Return r, w).

(** [try { body } catch (error) { handler }]: the handler receives
    whatever the body throws. *)
Definition try_catch {R A} (body : M R A) (handler : Error -> M R A) : M R A :=
  fun env w =>
    match body env w with
    | (Throw e, w') => handler e env w'
    | r => r
    end.

Definition console_log {R} (a : LogArg) : M R unit :=
  fun _ w => (Normal tt, emit (Log a) w).

Definition console_error {R} (e : Error) : M R unit :=
  fun _ w => (Normal tt, emit (LogError e) w).

(** [new Date()]: the time value read from the clock. *)
Definition new_Date {R} : M R Z := fun env w => (Normal (now env), w).

(** [await sql`...`]: a rejected statement throws and leaves the table
    as it was. *)
Definition sql {R} (q : Statement) : M R unit :=
  fun env w =>
    match db_error env q (invoices w) with
    | Some msg => (Throw (PostgresError msg), emit (Query q) w)
    | None =>
        (Normal tt,
         emit (Query q)
           {| invoices := exec (new_id env) q (invoices w); trace := trace w |})
    end.

Definition revalidatePath {R} (path : string) : M R unit :=
  fun _ w => (Normal tt, emit (Revalidate path) w).

(** [redirect(url)] never returns: it throws [NEXT_REDIRECT]. *)
Definition redirect {R A} (url : string) : M R A :=
  fun _ w => (Throw (NEXT_REDIRECT url), emit (Navigate url) w).

(** [schema.parse(raw)]: the data, or a thrown [ZodError]. *)
Definition parse {R} (schema : InvoiceFields) (raw : RawFormData)
  : M R InvoiceData :=
  match safeParse schema raw with
  | SafeParseSuccess data => mret data
  | SafeParseError error => mthrow (ZodError error)
  end.

(** How the promise of an [async] handler settles. *)
Inductive Outcome (R : Type) : Type :=
| Fulfilled (v : option R)
| Rejected (e : Error).
Arguments Fulfilled {R} v.
Arguments Rejected {R} e.

Definition call {R} (body : M R unit) (env : Env) (w : World)
  : Outcome R * World :=
  match body env w with
  | (Normal _, w') => (Fulfilled None, w')
  | (Return r, w') => (Fulfilled (Some r), w')
  | (Throw e, w') => (Rejected e, w')
  end.

End Server.

(** ** First version of the file: [parse], errors propagate *)

Module Permissive.
Import JS Zod Server.

Definition FormSchema : InvoiceObject := {|
  Zod.id := string_ None;
  customerId := string_ None;
  Zod.amount := coerce_number [];
  Zod.status := enum ["pending"; "paid"] None;
  Zod.date := string_ None
|}.

Definition CreateInvoice : InvoiceFields := omit_id_date FormSchema.
Definition UpdateInvoice : InvoiceFields := omit_id_date FormSchema.

Definition createInvoice (formData : FormData) : M Empty_set unit :=
  let rawFormData := {|
    raw_customerId := get formData "customerId";
    raw_amount := get formData "amount";
    raw_status := get formData "status"
  |} in
  console_log (LogObject rawFormData) ;;
  console_log (LogString (typeof (raw_amount rawFormData))) ;;
  data ← parse CreateInvoice rawFormData ;
  let amountInCents := mul (d_amount data) (of_Z 100) in
  t ← new_Date ;
  let date := hd "" (split "T" (toISOString t)) in
  sql (INSERT (d_customerId data) amountInCents (d_status data) date) ;;
  revalidatePath "/dashboard/invoices" ;;
  redirect "/dashboard/invoices".

Definition updateInvoice (id : string) (formData : FormData)
  : M Empty_set unit :=
  data ← parse UpdateInvoice {|
    raw_customerId := get formData "customerId";
    raw_amount := get formData "amount";
    raw_status := get formData "status"
  |} ;
  let amountInCents := mul (d_amount data) (of_Z 100) in
  sql (UPDATE (d_customerId data) amountInCents (d_status data) id) ;;
  revalidatePath "/dashboard/invoices" ;;
  redirect "/dashboard/invoices".

Definition deleteInvoice (id : string) : M Empty_set unit :=
  sql (DELETE id) ;;
  revalidatePath "/dashboard/invoices".

End Permissive.

(** ** Second version of the file: [safeParse], form state returned *)

Module Strict.
Import JS Zod Server.

Definition FormSchema : InvoiceObject := {|
  Zod.id := string_ None;
  customerId := string_ (Some "Please select a customer.");
  Zod.amount :=
    coerce_number [gt (of_Z 0) "Please enter an amount greater than $0."];
  Zod.status :=
    enum ["pending"; "paid"] (Some "Please select an invoice status.");
  Zod.date := string_ None
|}.

Definition CreateInvoice : InvoiceFields := omit_id_date FormSchema.
Definition UpdateInvoice : InvoiceFields := omit_id_date FormSchema.

Definition createInvoice (prevState : State) (formData : FormData)
  : M State unit :=
  let rawFormData := {|
    raw_customerId := get formData "customerId";
    raw_amount := get formData "amount";
    raw_status := get formData "status"
  |} in
  console_log (LogObject rawFormData) ;;
  console_log (LogString (typeof (raw_amount rawFormData))) ;;
  let validatedFields := safeParse CreateInvoice rawFormData in
  match validatedFields with
  | SafeParseError error =>
      return_ {| errors := Some (fieldErrors error);
                 message := Some "Missing fields. Failed to create invoice." |}
  | SafeParseSuccess data =>
      let amountInCents := mul (d_amount data) (of_Z 100) in
      t ← new_Date ;
      let date := hd "" (split "T" (toISOString t)) in
      try_catch
        (sql (INSERT (d_customerId data) amountInCents (d_status data) date))
        (fun error =>
           return_ {| errors := None;
                      message := Some "Database Error: Failed to create invoice." |}) ;;
      revalidatePath "/dashboard/invoices" ;;
      redirect "/dashboard/invoices"
  end.

Definition updateInvoice (id : string) (prevState : State)
  (formData : FormData) : M State unit :=
  let validated := safeParse UpdateInvoice {|
    raw_customerId := get formData "customerId";
    raw_amount := get formData "amount";
    raw_status := get formData "status"
  |} in
  match validated with
  | SafeParseError error =>
      return_ {| message := Some "Missing fields. Failed to update invoice.";
                 errors := Some (fieldErrors error) |}
  | SafeParseSuccess data =>
      let amountInCents := mul (d_amount data) (of_Z 100) in
      try_catch
        (sql (UPDATE (d_customerId data) amountInCents (d_status data) id))
        (fun error =>
           console_error error ;;
           return_ {| errors := None;
                      message := Some "Database Error: Failed to Update Invoice." |}) ;;
      revalidatePath "/dashboard/invoices" ;;
      redirect "/dashboard/invoices"
  end.

Definition deleteInvoice (id : string) : M Empty_set unit :=
  sql (DELETE id) ;;
  revalidatePath "/dashboard/invoices".

End Strict.

(** ** Vocabulary of the statements below *)

Import JS Zod Server.

(** The object literal both versions build from the submitted form. *)
Definition rawFormData (formData : FormData) : RawFormData := {|
  raw_customerId := get formData "customerId";
  raw_amount := get formData "amount";
  raw_status := get formData "status"
|}.

(** The effects a handler added when it took the world from [w] to [w']. *)
Definition effects_since (w w' : World) : list Effect :=
  drop (length (trace w)) (trace w').

Definition is_query (e : Effect) : bool :=
  match e with Query _ => true | _ => false end.

Definition is_revalidate (path : string) (e : Effect) : bool :=
  match e with Revalidate p => String.eqb p path | _ => false end.

Definition is_cache_or_navigation (e : Effect) : bool :=
  match e with Revalidate _ | Navigate _ => true | _ => false end.

Definition is_log (e : Effect) : bool :=
  match e with Log _ | LogError _ => true | _ => false end.

(** Does the character occur in the string? *)
Fixpoint occurs (c : ascii) (s : string) : bool :=
  match s with
  | EmptyString => false
  | String c' r => Ascii.eqb c' c || occurs c r
  end.

(** [Math.round]: the nearest integer, ties towards positive infinity.
    The handlers never call it; it is what "round(amount x 100)" would
    store. *)
Definition Math_round (x : number) : number :=
  match x with
  | S754_finite s m e =>
      if 0 <=? e then x
      else
        let v := if s then Z.neg m else Z.pos m in
        binary_normalize prec emax ((2 * v + 2 ^ (- e)) / 2 ^ (1 - e)) 0 s
  | _ => x
  end.

(** The day number, counted from 1970-01-01, of a date of the proleptic
    Gregorian calendar: the usual count of the days of whole 400-year
    eras, of the years within the era, and of the months from March. *)
Definition days_from_civil (y m d : Z) : Z :=
  let y' := if m <=? 2 then y - 1 else y in
  let era := y' / 400 in
  let yoe := y' - era * 400 in
  let mp := if 2 <? m then m - 3 else m + 9 in
  let doy := (153 * mp + 2) / 5 + d - 1 in
  let doe := yoe * 365 + yoe / 4 - yoe / 100 + doy in
  era * 146097 + doe - 719468.

(** A database that accepts every statement, a fixed clock, and an empty
    table: the setting of the worked examples. *)
Definition accepting : Env := {|
  now := 1793658123456;
  db_error := fun _ _ => None;
  new_id := fun table => "inv-" ++ pad 4 (Z.of_nat (length table))
|}.

Definition failing (msg : string) : Env := {|
  now := now accepting;
  db_error := fun _ _ => Some msg;
  new_id := new_id accepting
|}.

Definition empty_world : World := {| invoices := []; trace := [] |}.

Definition no_state : State := {| errors := None; message := None |}.

(** The messages [flatten] files under one key. *)
Definition messages_at (k : string) (error : list ZodIssue) : list string :=
  flat_map
    (fun i =>
       match path i with
       | k' :: _ => if String.eqb k' k then [Zod.message i] else []
       | [] => []
       end)
    error.

Definition strict_amount_message (n : number) : string :=
  if isNaN n then "Expected number, received nan"
  else "Please enter an amount greater than $0.".

(** The world after the two [console.log] calls of [createInvoice]. *)
Definition logged (formData : FormData) (w : World) : World :=
  emit (Log (LogString (typeof (get formData "amount"))))
    (emit (Log (LogObject (rawFormData formData))) w).

(** The statements built from the parsed data. *)
Definition insert_of (t : Z) (data : InvoiceData) : Statement :=
  INSERT (d_customerId data) (mul (d_amount data) (of_Z 100)) (d_status data)
    (date_string t).

Definition update_of (id : string) (data : InvoiceData) : Statement :=
  UPDATE (d_customerId data) (mul (d_amount data) (of_Z 100)) (d_status data) id.

(** The world after an accepted statement, and after the two calls that
    follow it. *)
Definition written (env : Env) (q : Statement) (w : World) : World :=
  emit (Query q)
    {| invoices := exec (new_id env) q (invoices w); trace := trace w |}.

Definition listing : string := "/dashboard/invoices".

Definition completed (env : Env) (q : Statement) (w : World) : World :=
  emit (Navigate listing) (emit (Revalidate listing) (written env q w)).

Definition create_failed : State :=
  {| errors := None; message := Some "Database Error: Failed to create invoice." |}.

Definition update_failed : State :=
  {| errors := None; message := Some "Database Error: Failed to Update Invoice." |}.

Definition quiet (evs : list Effect) : Prop :=
  forall e, In e evs -> is_cache_or_navigation e = false.

(** Either a run touched neither the cache nor the router, or it made,
    after its logging, exactly the calls: statement, invalidation,
    navigation, the statement having been accepted and applied and the
    promise being rejected with the signal of [redirect]. *)
Definition write_precedes_navigation (env : Env) (w : World)
  (r : Outcome State * World) : Prop :=
  quiet (effects_since w (snd r)) \/
  exists logs q,
    effects_since w (snd r) =
      (logs ++ [Query q; Revalidate "/dashboard/invoices";
                Navigate "/dashboard/invoices"])%list /\
    (forall e, In e logs -> is_log e = true) /\
    db_error env q (invoices w) = None /\
    invoices (snd r) = exec (new_id env) q (invoices w) /\
    fst r = Rejected (NEXT_REDIRECT "/dashboard/invoices").

(** What the permissive schema rejects: a customer that is not a string,
    an amount that coerces to [NaN], a status that is not one of the two
    strings. *)
Definition rejected_by_permissive (formData : FormData) : Prop :=
  (forall c, get formData "customerId" <> Str c) \/
  isNaN (ToNumber (get formData "amount")) = true \/
  (forall s, get formData "status" = Str s ->
             includes ["pending"; "paid"] s = false).

(** The forms each schema accepts, with the values read from them. *)
Definition strict_form (formData : FormData) (c : string) (n : number)
  (s : string) : Prop :=
  get formData "customerId" = Str c /\
  n = ToNumber (get formData "amount") /\
  ltb (of_Z 0) n = true /\
  get formData "status" = Str s /\
  (s = "pending" \/ s = "paid").

Definition permissive_form (formData : FormData) (c : string) (n : number)
  (s : string) : Prop :=
  get formData "customerId" = Str c /\
  n = ToNumber (get formData "amount") /\
  isNaN n = false /\
  get formData "status" = Str s /\
  (s = "pending" \/ s = "paid").

(** How a strict handler settles: it never rejects with anything but the
    signal of [redirect] and never resolves to [undefined]; a returned
    state carries a message and means that the table was left alone and
    that neither the cache nor the router was called; the redirect happens
    exactly for an accepted form whose statement the database accepts. *)
Definition strict_contract (env : Env) (w : World) (formData : FormData)
  (statement : string -> number -> string -> Statement)
  (r : Outcome State * World) : Prop :=
  (forall e, fst r = Rejected e -> e = NEXT_REDIRECT "/dashboard/invoices") /\
  fst r <> Fulfilled None /\
  (forall st, fst r = Fulfilled (Some st) ->
              Server.message st <> None /\
              invoices (snd r) = invoices w /\
              quiet (effects_since w (snd r))) /\
  (fst r = Rejected (NEXT_REDIRECT "/dashboard/invoices") <->
   exists c n s,
     strict_form formData c n s /\
     db_error env (statement c (mul n (of_Z 100)) s) (invoices w) = None).

(** How a permissive handler settles: always by rejection, with the
    [ZodError] for a form the schema refuses, with the error of the
    database when the statement is refused, and with the signal of
    [redirect] otherwise; short of the redirect the table is left alone
    and neither the cache nor the router is called. *)
Definition permissive_contract (env : Env) (w : World) (formData : FormData)
  (statement : string -> number -> string -> Statement)
  (r : Outcome Empty_set * World) : Prop :=
  (forall v, fst r <> Fulfilled v) /\
  ((exists issues, fst r = Rejected (ZodError issues)) <->
   ~ exists c n s, permissive_form formData c n s) /\
  (forall msg,
      fst r = Rejected (PostgresError msg) <->
      exists c n s,
        permissive_form formData c n s /\
        db_error env (statement c (mul n (of_Z 100)) s) (invoices w) = Some msg) /\
  (fst r = Rejected (NEXT_REDIRECT "/dashboard/invoices") <->
   exists c n s,
     permissive_form formData c n s /\
     db_error env (statement c (mul n (of_Z 100)) s) (invoices w) = None) /\
  (fst r <> Rejected (NEXT_REDIRECT "/dashboard/invoices") ->
   invoices (snd r) = invoices w /\ quiet (effects_since w (snd r))).

(** Table invariants: every status is one of the two of the enum, and no
    two rows share an id. *)
Definition statuses_valid (table : list Invoice) : Prop :=
  Forall (fun r => Server.status r = "pending" \/ Server.status r = "paid") table.

Definition ids_unique (table : list Invoice) : Prop :=
  NoDup (map Server.id table).

(** The shape [YYYY-MM-DD]: ten characters, hyphens in the fifth and
    eighth place, decimal digits elsewhere. *)
Definition is_digit (c : ascii) : bool :=
  let n := nat_of_ascii c in ((48 <=? n) && (n <=? 57))%nat.

Definition iso_date_shape (d : string) : Prop :=
  String.length d = 10%nat /\
  String.get 4 d = Some "-"%char /\
  String.get 7 d = Some "-"%char /\
  forall (i : nat) (c : ascii),
    String.get i d = Some c -> i <> 4%nat -> i <> 7%nat -> is_digit c = true.

(** The two [console.log] calls of [createInvoice], and the calls that
    follow an accepted statement. *)
Definition create_logs (formData : FormData) : list Effect :=
  [Log (LogObject (rawFormData formData));
   Log (LogString (typeof (get formData "amount")))].

Definition after_write (q : Statement) : list Effect :=
  [Query q; Revalidate "/dashboard/invoices"; Navigate "/dashboard/invoices"].

(** A string of white space only (the empty string included): a sequence
    of encoded white space code points. *)
Fixpoint blank (s : string) : bool :=
  match s with
  | EmptyString => true
  | String a r =>
      if is_white_space a then blank r
      else
        match r with
        | String b r2 =>
            if is_white_space2 a b then blank r2
            else
              match r2 with
              | String c r3 => is_white_space3 a b c && blank r3
              | EmptyString => false
              end
        | EmptyString => false
        end
  end.

(** The UTF-8 string of a list of byte values. *)
Definition utf8 (bytes : list Z) : string :=
  fold_right (fun b s => String (ascii_of_N (Z.to_N b)) s) EmptyString bytes.

(** Two forms that hold the same values for the three fields read. *)
Definition same_fields (formData formData' : FormData) : Prop :=
  get formData "customerId" = get formData' "customerId" /\
  get formData "amount" = get formData' "amount" /\
  get formData "status" = get formData' "status".

(** The table a handler leaves is the one it found, or the one its single
    statement, built from parsed data, produces. *)
Definition table_step (schema : InvoiceFields) (env : Env) (w w' : World)
  (formData : FormData) : Prop :=
  invoices w' = invoices w \/
  exists data statement,
    safeParse schema (rawFormData formData) = SafeParseSuccess data /\
    (statement = insert_of (now env) data \/
     exists id, statement = update_of id data) /\
    invoices w' = exec (new_id env) statement (invoices w).

(** Equality of doubles as data (not the comparison [==] of JavaScript). *)
Definition number_eqb (x y : number) : bool :=
  match x, y with
  | S754_zero a, S754_zero b => Bool.eqb a b
  | S754_infinity a, S754_infinity b => Bool.eqb a b
  | S754_nan, S754_nan => true
  | S754_finite a m e, S754_finite b m' e' =>
      Bool.eqb a b && Pos.eqb m m' && Z.eqb e e'
  | _, _ => false
  end.

(** The whole amount [k] is above zero and its product with 100 is the
    double of the integer [100 * k]; the same for all of 1 to [n]. *)
Definition whole_amount_exact (k : Z) : bool :=
  ltb (of_Z 0) (of_Z k) &&
  number_eqb (mul (of_Z k) (of_Z 100)) (of_Z (100 * k)).

Definition whole_amounts_exact (n : N) : bool :=
  N.recursion true
    (fun k acc => acc && whole_amount_exact (Z.of_N (N.succ k))) n.

(** The calls of a handler that validates a form and then sends one
    statement: for a form that is not accepted, [before] and nothing else;
    for an accepted form, [before], then the statement built from the form,
    followed by [on_error] when the database refuses it and by the
    invalidation and the redirect when it accepts. *)
Definition call_sequence (env : Env) (w : World)
  (accepted : string -> number -> string -> Prop) (before : list Effect)
  (statement : string -> number -> string -> Statement)
  (on_error : Statement -> string -> list Effect) (evs : list Effect) : Prop :=
  ((~ exists c n s, accepted c n s) -> evs = before) /\
  (forall c n s,
      accepted c n s ->
      let q := statement c (mul n (of_Z 100)) s in
      evs = (before ++
             match db_error env q (invoices w) with
             | Some msg => on_error q msg
             | None => after_write q
             end)%list).

(** ** Facts about the JavaScript model *)

Example StringToNumber_49_99 :
  StringToNumber "49.99" = S754_finite false 7035467042882847 (-47).
Proof. vm_compute. reflexivity. Qed.

Example StringToNumber_samples :
  StringToNumber "" = zero false /\ StringToNumber "  12 " = of_Z 12 /\
  StringToNumber "abc" = NaN /\ StringToNumber "-0" = zero true /\
  StringToNumber "0x1F" = of_Z 31 /\ StringToNumber "1e3" = of_Z 1000 /\
  StringToNumber "12px" = NaN /\ StringToNumber "." = NaN /\
  StringToNumber "2e308" = Infinity false /\
  StringToNumber "9007199254740993" = of_Z 9007199254740992 /\
  StringToNumber "0.1" = S754_finite false 7205759403792794 (-56).
Proof. vm_compute. repeat split. Qed.

Example StringToNumber_white_space :
  StringToNumber (utf8 [194; 160]) = zero false /\
  StringToNumber (utf8 [239; 187; 191; 32; 226; 128; 168]) = zero false /\
  StringToNumber (utf8 [227; 128; 128; 49; 50; 226; 128; 137; 194; 160]) = of_Z 12 /\
  StringToNumber (utf8 [49; 194; 160; 50]) = NaN /\
  StringToNumber (utf8 [195; 160]) = NaN /\
  StringToNumber (utf8 [194; 133]) = NaN.
Proof. vm_compute. repeat split. Qed.

Example Math_round_samples :
  Math_round (StringToNumber "2.5") = of_Z 3 /\
  Math_round (StringToNumber "-2.5") = of_Z (-2) /\
  Math_round (StringToNumber "1998.9999999999998") = of_Z 1999 /\
  Math_round (StringToNumber "0.49") = of_Z 0.
Proof. vm_compute. repeat split. Qed.

Example toISOString_samples :
  toISOString 0 = "1970-01-01T00:00:00.000Z" /\
  toISOString (-1) = "1969-12-31T23:59:59.999Z" /\
  toISOString 951782400000 = "2000-02-29T00:00:00.000Z" /\
  toISOString 1793658123456 = "2026-11-02T22:22:03.456Z" /\
  toISOString 8640000000000000 = "+275760-09-13T00:00:00.000Z" /\
  toISOString (-62198755200000) = "-000001-01-01T00:00:00.000Z".
Proof. vm_compute. repeat split. Qed.

(** *** The calendar date of a day number *)

Lemma year_of_era_bounds (doe : Z) :
  0 <= doe < 146097 ->
  let yoe := (doe - doe / 1460 + doe / 36524 - doe / 146096) / 365 in
  0 <= yoe < 400 /\ 0 <= doe - (365 * yoe + yoe / 4 - yoe / 100) <= 365.
Proof. intros H. cbv zeta. Z.to_euclidean_division_equations; lia. Qed.

(** Names the intermediate quantities of [civil_from_days] and bounds them. *)
Ltac civil_steps day :=
  unfold civil_from_days; cbv zeta;
  set (z := day + 719468); set (era := z / 146097);
  set (doe := z - era * 146097);
  assert (Hdoe : 0 <= doe < 146097)
    by (subst doe era; Z.to_euclidean_division_equations; lia);
  let H := fresh "H" in
  pose proof (year_of_era_bounds doe Hdoe) as H; cbv zeta in H;
  set (yoe := (doe - doe / 1460 + doe / 36524 - doe / 146096) / 365) in *;
  set (doy := doe - (365 * yoe + yoe / 4 - yoe / 100)) in *;
  destruct H as [Hyoe Hdoy];
  set (mp := (5 * doy + 2) / 153);
  assert (Hmp : 0 <= mp <= 11)
    by (subst mp; Z.to_euclidean_division_equations; lia).

Lemma civil_from_days_range (day : Z) :
  let '(y, m, d) := civil_from_days day in 1 <= m <= 12 /\ 1 <= d <= 31.
Proof.
  civil_steps day. split.
  - destruct (mp <? 10) eqn:E; [apply Z.ltb_lt in E | apply Z.ltb_ge in E]; lia.
  - subst mp. Z.to_euclidean_division_equations; lia.
Qed.

(** [civil_from_days] returns a date whose day number is the one given. *)
Lemma days_from_civil_from_days (day : Z) :
  let '(y, m, d) := civil_from_days day in days_from_civil y m d = day.
Proof.
  civil_steps day.
  set (d := doy - (153 * mp + 2) / 5 + 1).
  set (m := if mp <? 10 then mp + 3 else mp - 9).
  unfold days_from_civil. cbv zeta.
  assert (Hy : (if m <=? 2
                then (if m <=? 2 then yoe + era * 400 + 1 else yoe + era * 400) - 1
                else (if m <=? 2 then yoe + era * 400 + 1 else yoe + era * 400))
               = yoe + era * 400) by (destruct (m <=? 2); lia).
  rewrite Hy.
  assert (He : (yoe + era * 400) / 400 = era)
    by (Z.to_euclidean_division_equations; lia).
  rewrite He.
  assert (Hm : (if 2 <? m then m - 3 else m + 9) = mp).
  { subst m.
    destruct (mp <? 10) eqn:E; [apply Z.ltb_lt in E | apply Z.ltb_ge in E].
    - destruct (2 <? mp + 3) eqn:E2; [lia | apply Z.ltb_ge in E2; lia].
    - destruct (2 <? mp - 9) eqn:E2; [apply Z.ltb_lt in E2; lia | lia]. }
  rewrite Hm.
  replace (yoe + era * 400 - era * 400) with yoe by lia.
  unfold d, doy, doe, z. lia.
Qed.

(** The date part of the ISO string renders the calendar date of the UTC
    day that contains the instant. *)
Lemma date_string_calendar (t : Z) :
  exists y m d,
    days_from_civil y m d = t / msPerDay /\
    1 <= m <= 12 /\ 1 <= d <= 31 /\
    date_string t = year_string y ++ "-" ++ pad 2 m ++ "-" ++ pad 2 d.
Proof.
  pose proof (days_from_civil_from_days (t / msPerDay)) as Hday.
  pose proof (civil_from_days_range (t / msPerDay)) as Hrange.
  unfold date_string.
  destruct (civil_from_days (t / msPerDay)) as [[y m] d].
  exists y, m, d. destruct Hrange as [Hm Hd].
  split; [exact Hday |]. split; [exact Hm |]. split; [exact Hd | reflexivity].
Qed.

Lemma ltb_zero_positive (n : number) :
  ltb (of_Z 0) n = true -> isNaN n = false /\ leb n (of_Z 0) = false.
Proof.
  destruct n as [s | s | | s m e]; try destruct s; cbn; intros H;
    try discriminate H; split; reflexivity.
Qed.

Lemma leb_zero_not_positive (n : number) :
  leb n (of_Z 0) = true -> ltb (of_Z 0) n = false.
Proof.
  destruct n as [s | s | | s m e]; try destruct s; cbn; intros H;
    try discriminate H; reflexivity.
Qed.

Lemma occurs_app (c : ascii) (s t : string) :
  occurs c (s ++ t) = occurs c s || occurs c t.
Proof.
  induction s as [| a s IH]; simpl; [reflexivity |].
  rewrite IH. apply orb_assoc.
Qed.

Lemma digit_char_not_T (d : Z) : Ascii.eqb (digit_char d) "T" = false.
Proof.
  unfold digit_char.
  assert (H : 0 <= d mod 10 < 10) by (apply Z.mod_pos_bound; lia).
  assert (E : d mod 10 = 0 \/ d mod 10 = 1 \/ d mod 10 = 2 \/ d mod 10 = 3 \/
              d mod 10 = 4 \/ d mod 10 = 5 \/ d mod 10 = 6 \/ d mod 10 = 7 \/
              d mod 10 = 8 \/ d mod 10 = 9) by lia.
  repeat (destruct E as [E | E]; [rewrite E; reflexivity |]).
  rewrite E. reflexivity.
Qed.

Lemma pad_no_T (w : nat) (n : Z) : occurs "T" (pad w n) = false.
Proof.
  revert n. induction w as [| w IH]; intros n; simpl; [reflexivity |].
  rewrite occurs_app, IH. simpl. rewrite digit_char_not_T. reflexivity.
Qed.

Lemma length_append (s t : string) :
  String.length (s ++ t) = (String.length s + String.length t)%nat.
Proof. induction s as [| c s IH]; simpl; [reflexivity | now rewrite IH]. Qed.

Lemma length_pad (w : nat) (n : Z) : String.length (pad w n) = w.
Proof.
  revert n. induction w as [| w IH]; intros n; simpl; [reflexivity |].
  rewrite length_append, IH. simpl. lia.
Qed.

Lemma year_string_no_T (y : Z) : occurs "T" (year_string y) = false.
Proof.
  unfold year_string.
  destruct ((0 <=? y) && (y <=? 9999)); [apply pad_no_T |].
  cbn [occurs]. rewrite pad_no_T. destruct (y <? 0); reflexivity.
Qed.

Lemma date_string_no_T (t : Z) : occurs "T" (date_string t) = false.
Proof.
  unfold date_string.
  destruct (civil_from_days (t / msPerDay)) as [[y m] d].
  rewrite !occurs_app, year_string_no_T, !pad_no_T. reflexivity.
Qed.

(** Splitting at a separator that the first part does not contain gives
    that first part back. *)
Lemma split_hd (sep : ascii) (s r : string) :
  occurs sep s = false ->
  hd "" (split sep (s ++ String sep r)) = s.
Proof.
  induction s as [| c s IH]; simpl; intros H.
  - rewrite Ascii.eqb_refl. reflexivity.
  - apply orb_false_iff in H as [Hc Hs].
    rewrite Hc. specialize (IH Hs).
    destruct (split sep (s ++ String sep r)) as [| h t]; simpl in *;
      congruence.
Qed.

(** [new Date(t).toISOString().split("T")[0]] is the date part. *)
Lemma toISOString_split_date (t : Z) :
  hd "" (split "T" (toISOString t)) = date_string t.
Proof.
  unfold toISOString. apply split_hd, date_string_no_T.
Qed.

(** ** Facts about the schemas *)

Lemma fold_add_field_error (error : list ZodIssue) (k : string) :
  forall acc : gmap string (list string),
    fold_left add_field_error error acc !! k =
    match messages_at k error with
    | [] => acc !! k
    | ms => Some (default [] (acc !! k) ++ ms)%list
    end.
Proof.
  induction error as [| i error IH]; intros acc; [reflexivity |].
  cbn [fold_left]. rewrite IH. unfold messages_at at 2. cbn [flat_map].
  fold (messages_at k error).
  unfold add_field_error. destruct (path i) as [| k' rest].
  { reflexivity. }
  destruct (String.eqb_spec k' k) as [-> | Hne].
  - rewrite lookup_insert_eq. cbn [default from_option Datatypes.id].
    destruct (messages_at k error) as [| m ms]; cbn [app].
    + reflexivity.
    + rewrite <- app_assoc. reflexivity.
  - rewrite lookup_insert_ne by exact Hne. reflexivity.
Qed.

(** [fieldErrors] has a key exactly for the fields with an issue, and
    lists their messages in the order found. *)
Lemma fieldErrors_lookup (error : list ZodIssue) (k : string) :
  fieldErrors error !! k =
  match messages_at k error with [] => None | ms => Some ms end.
Proof.
  unfold fieldErrors. rewrite fold_add_field_error, lookup_empty.
  destruct (messages_at k error); reflexivity.
Qed.

Lemma messages_at_app (k : string) (l1 l2 : list ZodIssue) :
  messages_at k (l1 ++ l2) = (messages_at k l1 ++ messages_at k l2)%list.
Proof. unfold messages_at. apply flat_map_app. Qed.

(** A failed [safeParse] reports the issues of the three fields, in the
    order of the shape. *)
Lemma safeParse_error (schema : InvoiceFields) (raw : RawFormData)
  (error : list ZodIssue) :
  safeParse schema raw = SafeParseError error ->
  error =
  (issues_of (f_customerId schema ["customerId"] (raw_customerId raw)) ++
   issues_of (f_amount schema ["amount"] (raw_amount raw)) ++
   issues_of (f_status schema ["status"] (raw_status raw)))%list.
Proof.
  unfold safeParse. cbv zeta.
  set (c := f_customerId schema _ _). set (a := f_amount schema _ _).
  set (s := f_status schema _ _).
  destruct c, a, s; intros H; inversion H; reflexivity.
Qed.

Lemma safeParse_invalid_amount (schema : InvoiceFields) (raw : RawFormData)
  (issues : list ZodIssue) :
  f_amount schema ["amount"] (raw_amount raw) = INVALID issues ->
  safeParse schema raw =
  SafeParseError
    (issues_of (f_customerId schema ["customerId"] (raw_customerId raw)) ++
     issues ++
     issues_of (f_status schema ["status"] (raw_status raw)))%list.
Proof.
  intros H. unfold safeParse. cbv zeta. rewrite H.
  set (c := f_customerId schema _ _). set (s := f_status schema _ _).
  destruct c, s; reflexivity.
Qed.

(** The two derived schemas are the same schema. *)
Lemma strict_UpdateInvoice_eq : Strict.UpdateInvoice = Strict.CreateInvoice.
Proof. reflexivity. Qed.

Lemma permissive_UpdateInvoice_eq :
  Permissive.UpdateInvoice = Permissive.CreateInvoice.
Proof. reflexivity. Qed.

(** What the strict schema accepts. *)
Lemma strict_safeParse_valid (raw : RawFormData) (c s : string) :
  raw_customerId raw = Str c ->
  ltb (of_Z 0) (ToNumber (raw_amount raw)) = true ->
  raw_status raw = Str s ->
  includes ["pending"; "paid"] s = true ->
  safeParse Strict.CreateInvoice raw =
  SafeParseSuccess {| d_customerId := c; d_amount := ToNumber (raw_amount raw);
                      d_status := s |}.
Proof.
  intros Hc Ha Hs Hin. apply ltb_zero_positive in Ha as [Hnan Hle].
  unfold safeParse, Strict.CreateInvoice, omit_id_date, Strict.FormSchema.
  cbn [f_customerId f_amount f_status customerId Zod.amount Zod.status].
  rewrite Hc, Hs. unfold coerce_number, string_, enum, run_check.
  cbn [map concat gt_value]. rewrite Hnan, Hle, Hin. reflexivity.
Qed.

(** An amount that coerces to [NaN] or to a number not above zero makes
    the strict schema fail, with one message under ["amount"]. *)
Lemma strict_safeParse_amount (raw : RawFormData) :
  let n := ToNumber (raw_amount raw) in
  isNaN n = true \/ leb n (of_Z 0) = true ->
  exists error,
    safeParse Strict.CreateInvoice raw = SafeParseError error /\
    fieldErrors error !! "amount" = Some [strict_amount_message n].
Proof.
  intros n Hn.
  assert (Ha : f_amount Strict.CreateInvoice ["amount"] (raw_amount raw) =
               INVALID [ {| code := if isNaN n then invalid_type else too_small;
                            path := ["amount"];
                            Zod.message := strict_amount_message n |} ]).
  { cbn [Strict.CreateInvoice omit_id_date Strict.FormSchema f_amount Zod.amount].
    unfold coerce_number, strict_amount_message, run_check. fold n.
    cbn [map concat gt_value].
    destruct (isNaN n) eqn:Hnan; [reflexivity |].
    destruct Hn as [Hn | Hn]; [discriminate Hn |]. rewrite Hn. reflexivity. }
  eexists. split; [apply safeParse_invalid_amount, Ha |].
  rewrite fieldErrors_lookup, !messages_at_app.
  assert (Hc : forall o v, messages_at "amount"
                 (issues_of (string_ o ["customerId"] v)) = []).
  { intros o [| x | x]; reflexivity. }
  assert (Hs : forall vs o v, messages_at "amount"
                 (issues_of (enum vs o ["status"] v)) = []).
  { intros vs o [| x | x]; try reflexivity.
    unfold enum. destruct (includes vs x); reflexivity. }
  cbn [Strict.CreateInvoice omit_id_date Strict.FormSchema f_customerId
         f_status customerId Zod.status].
  rewrite Hc, Hs. reflexivity.
Qed.

(** Under the strict schema the customer field fails exactly when the
    submitted value is not a string; the empty string passes. *)
Lemma strict_customerId_messages (raw : RawFormData) (error : list ZodIssue) :
  safeParse Strict.CreateInvoice raw = SafeParseError error ->
  fieldErrors error !! "customerId" =
  match raw_customerId raw with
  | Str _ => None
  | _ => Some ["Please select a customer."]
  end.
Proof.
  intros H. apply safeParse_error in H as ->.
  cbn [Strict.CreateInvoice omit_id_date Strict.FormSchema f_customerId
         f_amount f_status customerId Zod.amount Zod.status].
  rewrite fieldErrors_lookup, !messages_at_app.
  assert (Ha : forall ck v, messages_at "customerId"
                 (issues_of (coerce_number [ck] ["amount"] v)) = []).
  { intros ck v. unfold coerce_number, run_check. cbn [map concat].
    destruct (isNaN (ToNumber v)); [reflexivity |].
    destruct (leb (ToNumber v) (gt_value ck)); reflexivity. }
  assert (Hs : forall vs o v, messages_at "customerId"
                 (issues_of (enum vs o ["status"] v)) = []).
  { intros vs o [| x | x]; try reflexivity.
    unfold enum. destruct (includes vs x); reflexivity. }
  rewrite Ha, Hs, !app_nil_r.
  destruct (raw_customerId raw); reflexivity.
Qed.

(** ** What one call does *)

Lemma strict_createInvoice_run env w prevState formData :
  call (Strict.createInvoice prevState formData) env w =
  match safeParse Strict.CreateInvoice (rawFormData formData) with
  | SafeParseError error =>
      (Fulfilled
         (Some {| errors := Some (fieldErrors error);
                  message := Some "Missing fields. Failed to create invoice." |}),
       logged formData w)
  | SafeParseSuccess data =>
      let q := insert_of (now env) data in
      match db_error env q (invoices w) with
      | Some _ => (Fulfilled (Some create_failed), emit (Query q) (logged formData w))
      | None => (Rejected (NEXT_REDIRECT listing), completed env q (logged formData w))
      end
  end.
Proof.
  unfold call, Strict.createInvoice. fold (rawFormData formData).
  unfold mbind, M_bind, console_log, new_Date, try_catch, sql, revalidatePath,
    redirect, return_.
  destruct (safeParse Strict.CreateInvoice (rawFormData formData)) as [data | error];
    [| reflexivity].
  cbv zeta. rewrite toISOString_split_date. unfold insert_of.
  cbn [emit invoices trace].
  destruct (db_error env _ (invoices w)); reflexivity.
Qed.

Lemma strict_updateInvoice_run env w id prevState formData :
  call (Strict.updateInvoice id prevState formData) env w =
  match safeParse Strict.UpdateInvoice (rawFormData formData) with
  | SafeParseError error =>
      (Fulfilled
         (Some {| errors := Some (fieldErrors error);
                  message := Some "Missing fields. Failed to update invoice." |}),
       w)
  | SafeParseSuccess data =>
      let q := update_of id data in
      match db_error env q (invoices w) with
      | Some msg =>
          (Fulfilled (Some update_failed),
           emit (LogError (PostgresError msg)) (emit (Query q) w))
      | None => (Rejected (NEXT_REDIRECT listing), completed env q w)
      end
  end.
Proof.
  unfold call, Strict.updateInvoice. fold (rawFormData formData).
  unfold mbind, M_bind, console_error, try_catch, sql, revalidatePath,
    redirect, return_.
  destruct (safeParse Strict.UpdateInvoice (rawFormData formData)) as [data | error];
    [| reflexivity].
  cbv zeta. unfold update_of.
  destruct (db_error env _ (invoices w)); reflexivity.
Qed.

Lemma permissive_createInvoice_run env w formData :
  call (Permissive.createInvoice formData) env w =
  match safeParse Permissive.CreateInvoice (rawFormData formData) with
  | SafeParseError error => (Rejected (ZodError error), logged formData w)
  | SafeParseSuccess data =>
      let q := insert_of (now env) data in
      match db_error env q (invoices w) with
      | Some msg => (Rejected (PostgresError msg), emit (Query q) (logged formData w))
      | None => (Rejected (NEXT_REDIRECT listing), completed env q (logged formData w))
      end
  end.
Proof.
  unfold call, Permissive.createInvoice. fold (rawFormData formData).
  unfold mbind, M_bind, console_log, new_Date, parse, sql, revalidatePath,
    redirect.
  destruct (safeParse Permissive.CreateInvoice (rawFormData formData)) as [data | error];
    [| reflexivity].
  cbv zeta. unfold mret, M_ret. rewrite toISOString_split_date. unfold insert_of.
  cbn [emit invoices trace].
  destruct (db_error env _ (invoices w)); reflexivity.
Qed.

Lemma permissive_updateInvoice_run env w id formData :
  call (Permissive.updateInvoice id formData) env w =
  match safeParse Permissive.UpdateInvoice (rawFormData formData) with
  | SafeParseError error => (Rejected (ZodError error), w)
  | SafeParseSuccess data =>
      let q := update_of id data in
      match db_error env q (invoices w) with
      | Some msg => (Rejected (PostgresError msg), emit (Query q) w)
      | None => (Rejected (NEXT_REDIRECT listing), completed env q w)
      end
  end.
Proof.
  unfold call, Permissive.updateInvoice. fold (rawFormData formData).
  unfold mbind, M_bind, parse, sql, revalidatePath, redirect.
  destruct (safeParse Permissive.UpdateInvoice (rawFormData formData)) as [data | error];
    [| reflexivity].
  cbv zeta. unfold mret, M_ret, update_of.
  destruct (db_error env _ (invoices w)); reflexivity.
Qed.

Lemma deleteInvoice_run env w id :
  call (Strict.deleteInvoice id) env w =
  match db_error env (DELETE id) (invoices w) with
  | Some msg => (Rejected (PostgresError msg), emit (Query (DELETE id)) w)
  | None => (Fulfilled None, emit (Revalidate listing) (written env (DELETE id) w))
  end.
Proof.
  unfold call, Strict.deleteInvoice, mbind, M_bind, sql, revalidatePath.
  destruct (db_error env _ (invoices w)); reflexivity.
Qed.

Lemma permissive_deleteInvoice_eq id :
  Permissive.deleteInvoice id = Strict.deleteInvoice id.
Proof. reflexivity. Qed.

(** *** Traces *)

Lemma effects_since_app (w w' : World) (l : list Effect) :
  trace w' = (trace w ++ l)%list -> effects_since w w' = l.
Proof. intros H. unfold effects_since. rewrite H. apply drop_app_length. Qed.

Lemma trace_logged formData w :
  trace (logged formData w) =
  (trace w ++ [Log (LogObject (rawFormData formData));
               Log (LogString (typeof (get formData "amount")))])%list.
Proof. unfold logged, emit. cbn [trace]. rewrite <- app_assoc. reflexivity. Qed.

Lemma invoices_logged formData w : invoices (logged formData w) = invoices w.
Proof. reflexivity. Qed.

Lemma trace_completed env q w :
  trace (completed env q w) =
  (trace w ++ [Query q; Revalidate listing; Navigate listing])%list.
Proof.
  unfold completed, written, emit. cbn [trace]. rewrite <- !app_assoc. reflexivity.
Qed.

Lemma invoices_completed env q w :
  invoices (completed env q w) = exec (new_id env) q (invoices w).
Proof. reflexivity. Qed.

(** *** The table *)

Lemma exec_update_frame fresh c a s i table :
  map (fun r => (Server.id r, date r)) (exec fresh (UPDATE c a s i) table) =
  map (fun r => (Server.id r, date r)) table.
Proof.
  cbn [exec]. induction table as [| r table IH]; [reflexivity |].
  cbn [map]. rewrite IH. destruct (String.eqb (Server.id r) i); reflexivity.
Qed.

Lemma exec_delete_absent fresh i table :
  (forall r, In r table -> Server.id r <> i) ->
  exec fresh (DELETE i) table = table.
Proof.
  cbn [exec]. induction table as [| r table IH]; intros H; [reflexivity |].
  cbn [List.filter].
  destruct (String.eqb_spec (Server.id r) i) as [E | _].
  - exfalso. apply (H r); [left; reflexivity | exact E].
  - cbn [negb]. rewrite IH; [reflexivity |].
    intros r' Hr'. apply H. right. exact Hr'.
Qed.

(** A [catch] receives the signal of [redirect] like any other error:
    a [redirect] placed inside the [try] would never reach the caller. *)
Lemma try_catch_intercepts_redirect {R A} (handler : Error -> M R A) url env w :
  try_catch (redirect url) handler env w =
  handler (NEXT_REDIRECT url) env (emit (Navigate url) w).
Proof. reflexivity. Qed.

(** ** Creating an invoice *)

(** The first scenario of the specification, run to the end. *)
Example createInvoice_scenario :
  let formData :=
    [("customerId", Str "c1"); ("amount", Str "49.99"); ("status", Str "pending")] in
  call (Strict.createInvoice no_state formData) accepting empty_world =
  (Rejected (NEXT_REDIRECT "/dashboard/invoices"),
   {| invoices :=
        [ {| Server.id := "inv-0000"; customer_id := "c1";
             Server.amount := of_Z 4999; Server.status := "pending";
             Server.date := "2026-11-02" |} ];
      trace :=
        [ Log (LogObject (rawFormData formData));
          Log (LogString "string");
          Query (INSERT "c1" (of_Z 4999) "pending" "2026-11-02");
          Revalidate "/dashboard/invoices";
          Navigate "/dashboard/invoices" ] |}).
Proof. vm_compute. reflexivity. Qed.

(** The product the handlers store for the amount ["49.99"]. *)
Lemma amount_49_99_in_cents :
  mul (StringToNumber "49.99") (of_Z 100) = of_Z 4999.
Proof. vm_compute. reflexivity. Qed.

(** What [createInvoice] hands to the database: for every valid input (a
    customer string, an amount above zero, a status among pending and paid)
    whose INSERT the database accepts, both versions append one row whose
    amount is the double product [amount * 100] and whose date is the
    calendar date of the current UTC day, the part of the ISO timestamp
    that precedes the ["T"]; for the amount string ["49.99"] the product is
    exactly 4999. *)
Lemma createInvoice_persists_product :
  forall env w prevState formData c s,
    get formData "customerId" = Str c ->
    ltb (of_Z 0) (ToNumber (get formData "amount")) = true ->
    get formData "status" = Str s ->
    includes ["pending"; "paid"] s = true ->
    let row := {|
      Server.id := new_id env (invoices w);
      customer_id := c;
      Server.amount := mul (ToNumber (get formData "amount")) (of_Z 100);
      Server.status := s;
      Server.date := date_string (now env)
    |} in
    db_error env
      (INSERT c (Server.amount row) s (Server.date row)) (invoices w) = None ->
    invoices (snd (call (Strict.createInvoice prevState formData) env w)) =
      (invoices w ++ [row])%list /\
    invoices (snd (call (Permissive.createInvoice formData) env w)) =
      (invoices w ++ [row])%list /\
    (exists y m d,
        days_from_civil y m d = now env / msPerDay /\
        1 <= m <= 12 /\ 1 <= d <= 31 /\
        Server.date row = year_string y ++ "-" ++ pad 2 m ++ "-" ++ pad 2 d) /\
    toISOString (now env) =
      Server.date row ++ "T" ++ time_string (now env) ++ "Z" /\
    occurs "T" (Server.date row) = false /\
    (get formData "amount" = Str "49.99" -> Server.amount row = of_Z 4999).
Proof.
  intros env w prevState formData c s Hc Ha Hs Hin row Hdb.
  assert (Hstrict : safeParse Strict.CreateInvoice (rawFormData formData) =
            SafeParseSuccess {| d_customerId := c;
                                d_amount := ToNumber (get formData "amount");
                                d_status := s |}).
  { apply strict_safeParse_valid; assumption. }
  assert (Hperm : safeParse Permissive.CreateInvoice (rawFormData formData) =
            SafeParseSuccess {| d_customerId := c;
                                d_amount := ToNumber (get formData "amount");
                                d_status := s |}).
  { apply ltb_zero_positive in Ha as [Hnan _].
    unfold safeParse, Permissive.CreateInvoice, omit_id_date, Permissive.FormSchema.
    cbn [f_customerId f_amount f_status customerId Zod.amount Zod.status rawFormData
           raw_customerId raw_amount raw_status].
    rewrite Hc, Hs. unfold coerce_number, string_, enum.
    cbn [map concat]. rewrite Hnan, Hin. reflexivity. }
  assert (Hdb' : db_error env
            (INSERT c (mul (ToNumber (get formData "amount")) (of_Z 100)) s
               (date_string (now env))) (invoices w) = None) by exact Hdb.
  split; [| split; [| split; [apply date_string_calendar | split; [| split]]]].
  - rewrite strict_createInvoice_run, Hstrict. cbv zeta.
    unfold insert_of. cbn [d_customerId d_amount d_status].
    rewrite Hdb'. reflexivity.
  - rewrite permissive_createInvoice_run, Hperm. cbv zeta.
    unfold insert_of. cbn [d_customerId d_amount d_status].
    rewrite Hdb'. reflexivity.
  - reflexivity.
  - apply date_string_no_T.
  - intros E. subst row. cbn [Server.amount]. rewrite E.
    cbn [ToNumber]. apply amount_49_99_in_cents.
Qed.

(** The scenario with the amount ["49.99"]: one row, amount 4999. *)
Lemma createInvoice_persists_product_witness :
  let formData :=
    [("customerId", Str "c1"); ("amount", Str "49.99"); ("status", Str "pending")] in
  invoices (snd (call (Strict.createInvoice no_state formData) accepting empty_world)) =
    [ {| Server.id := "inv-0000"; customer_id := "c1";
         Server.amount := of_Z 4999; Server.status := "pending";
         Server.date := "2026-11-02" |} ].
Proof.
  intros formData.
  refine (proj1 (createInvoice_persists_product accepting empty_world no_state
                   formData "c1" "pending" _ _ _ _ _)).
  all: vm_compute; reflexivity.
Defined.

(** ** The three outcomes of the strict handlers *)

Lemma effects_since_refl (w : World) : effects_since w w = [].
Proof. unfold effects_since. apply drop_all. Qed.

(** Rewrites the effects of a run into the list of calls it made. *)
Ltac list_effects :=
  repeat match goal with
    | |- context [effects_since ?w ?w] => rewrite (effects_since_refl w)
    | |- context [effects_since ?w ?w'] =>
        let H := fresh "Heff" in
        eassert (H : effects_since w w' = _)
          by (apply effects_since_app;
              unfold completed, written, logged, emit; cbn [trace];
              rewrite <- ?app_assoc; cbn [app]; reflexivity);
        rewrite H; clear H
    end.

(** C1: the code does not round. For the valid input
    [{customerId: "c1", amount: "19.99", status: "pending"}] both versions
    of [createInvoice] send an INSERT whose amount parameter is the double
    [19.99 * 100] = 1998.9999999999998: it is not [round(amount * 100)] =
    1999, and it is not an integer number of cents. Whatever the database
    answers, the row the claim describes is not stored: if the statement is
    refused, the strict handler returns its generic database error, the
    permissive one rejects, and the table is unchanged; if it is accepted,
    the row stored holds 1998.9999999999998. *)
Theorem createInvoice_sends_unrounded_amount :
  forall env w prevState,
    let formData :=
      [("customerId", Str "c1"); ("amount", Str "19.99"); ("status", Str "pending")] in
    let n := ToNumber (get formData "amount") in
    let sent := S754_finite false 8791694975696895 (-42) in
    let q := INSERT "c1" sent "pending" (date_string (now env)) in
    let strict := call (Strict.createInvoice prevState formData) env w in
    let permissive := call (Permissive.createInvoice formData) env w in
    ltb (of_Z 0) n = true /\
    mul n (of_Z 100) = sent /\
    Math_round (mul n (of_Z 100)) = of_Z 1999 /\
    sent <> of_Z 1999 /\
    Math_round sent <> sent /\
    In (Query q) (effects_since w (snd strict)) /\
    In (Query q) (effects_since w (snd permissive)) /\
    match db_error env q (invoices w) with
    | Some msg =>
        fst strict =
          Fulfilled
            (Some {| errors := None;
                     Server.message :=
                       Some "Database Error: Failed to create invoice." |}) /\
        fst permissive = Rejected (PostgresError msg) /\
        invoices (snd strict) = invoices w /\
        invoices (snd permissive) = invoices w
    | None =>
        let row := {| Server.id := new_id env (invoices w); customer_id := "c1";
                      Server.amount := sent; Server.status := "pending";
                      Server.date := date_string (now env) |} in
        invoices (snd strict) = (invoices w ++ [row])%list /\
        invoices (snd permissive) = (invoices w ++ [row])%list
    end.
Proof.
  intros env w prevState formData n sent q strict permissive.
  assert (Hmul : mul (StringToNumber "19.99") (of_Z 100) = sent)
    by (vm_compute; reflexivity).
  assert (Hpos : ltb (of_Z 0) (StringToNumber "19.99") = true)
    by (vm_compute; reflexivity).
  assert (Hs : safeParse Strict.CreateInvoice (rawFormData formData) =
               SafeParseSuccess {| d_customerId := "c1";
                                   d_amount := StringToNumber "19.99";
                                   d_status := "pending" |}).
  { apply strict_safeParse_valid; [reflexivity | exact Hpos | reflexivity
                                   | reflexivity]. }
  assert (Hp : safeParse Permissive.CreateInvoice (rawFormData formData) =
               SafeParseSuccess {| d_customerId := "c1";
                                   d_amount := StringToNumber "19.99";
                                   d_status := "pending" |}).
  { apply ltb_zero_positive in Hpos as [Hnan _].
    unfold safeParse, Permissive.CreateInvoice, omit_id_date, Permissive.FormSchema.
    cbn [f_customerId f_amount f_status customerId Zod.amount Zod.status
           rawFormData raw_customerId raw_amount raw_status formData get
           String.eqb Ascii.eqb Bool.eqb].
    unfold coerce_number, string_, enum. cbn [ToNumber map concat].
    rewrite Hnan. reflexivity. }
  split; [exact Hpos |]. split; [exact Hmul |].
  split; [vm_compute; reflexivity |].
  split; [vm_compute; discriminate |].
  split; [vm_compute; discriminate |].
  unfold strict, permissive.
  rewrite strict_createInvoice_run, permissive_createInvoice_run, Hs, Hp.
  cbv zeta. unfold insert_of. cbn [d_customerId d_amount d_status].
  rewrite Hmul. fold q.
  destruct (db_error env q (invoices w)) as [msg |]; cbn [fst snd];
    list_effects.
  - split; [cbn [In]; auto |]. split; [cbn [In]; auto |].
    repeat split; reflexivity.
  - split; [cbn [In]; auto |]. split; [cbn [In]; auto |].
    split; reflexivity.
Qed.

(** C2: whenever the statement sent by the strict [createInvoice] or
    [updateInvoice] is rejected by the database, the handler returns an
    object holding only the generic message (no [errors] field), neither
    invalidates the listing nor redirects, and the table is unchanged. *)
Theorem strict_persistence_failure :
  forall env w id prevState formData q msg,
    db_error env q (invoices w) = Some msg ->
    (let r := call (Strict.createInvoice prevState formData) env w in
     In (Query q) (effects_since w (snd r)) ->
     fst r = Fulfilled
               (Some {| errors := None;
                        Server.message :=
                          Some "Database Error: Failed to create invoice." |}) /\
     quiet (effects_since w (snd r)) /\
     invoices (snd r) = invoices w) /\
    (let r := call (Strict.updateInvoice id prevState formData) env w in
     In (Query q) (effects_since w (snd r)) ->
     fst r = Fulfilled
               (Some {| errors := None;
                        Server.message :=
                          Some "Database Error: Failed to Update Invoice." |}) /\
     quiet (effects_since w (snd r)) /\
     invoices (snd r) = invoices w).
Proof.
  intros env w id prevState formData q msg Hdb. split; cbv zeta.
  - rewrite strict_createInvoice_run.
    destruct (safeParse Strict.CreateInvoice (rawFormData formData))
      as [data | error]; cbv zeta.
    + destruct (db_error env (insert_of (now env) data) (invoices w)) eqn:E;
        cbn [fst snd]; list_effects; intros Hin.
      * split; [reflexivity |]. split; [| reflexivity].
        intros e He. cbn [In] in He.
        destruct He as [<- | [<- | [<- | []]]]; reflexivity.
      * cbn [In] in Hin.
        destruct Hin as [Hin | [Hin | [Hin | [Hin | [Hin | []]]]]];
          try discriminate Hin.
        injection Hin as <-. congruence.
    + cbn [fst snd]. list_effects. intros Hin. cbn [In] in Hin.
      destruct Hin as [Hin | [Hin | []]]; discriminate Hin.
  - rewrite strict_updateInvoice_run.
    destruct (safeParse Strict.UpdateInvoice (rawFormData formData))
      as [data | error]; cbv zeta.
    + destruct (db_error env (update_of id data) (invoices w)) eqn:E;
        cbn [fst snd]; list_effects; intros Hin.
      * split; [reflexivity |]. split; [| reflexivity].
        intros e He. cbn [In] in He.
        destruct He as [<- | [<- | []]]; reflexivity.
      * cbn [In] in Hin.
        destruct Hin as [Hin | [Hin | [Hin | []]]]; try discriminate Hin.
        injection Hin as <-. congruence.
    + cbn [fst snd]. list_effects. intros [].
Qed.

(** A database that refuses the connection, for both strict handlers. *)
Lemma strict_persistence_failure_witness :
  let formData :=
    [("customerId", Str "c1"); ("amount", Str "49.99"); ("status", Str "pending")] in
  let env := failing "connection refused" in
  (let r := call (Strict.createInvoice no_state formData) env empty_world in
   fst r = Fulfilled
             (Some {| errors := None;
                      Server.message :=
                        Some "Database Error: Failed to create invoice." |}) /\
   quiet (effects_since empty_world (snd r)) /\
   invoices (snd r) = []) /\
  (let r := call (Strict.updateInvoice "inv-0000" no_state formData) env
              empty_world in
   fst r = Fulfilled
             (Some {| errors := None;
                      Server.message :=
                        Some "Database Error: Failed to Update Invoice." |}) /\
   quiet (effects_since empty_world (snd r)) /\
   invoices (snd r) = []).
Proof.
  intros formData env. split.
  - refine (proj1 (strict_persistence_failure env empty_world "inv-0000" no_state
                     formData (INSERT "c1" (of_Z 4999) "pending" "2026-11-02")
                     "connection refused" _) _).
    + reflexivity.
    + vm_compute. right. right. left. reflexivity.
  - refine (proj2 (strict_persistence_failure env empty_world "inv-0000" no_state
                     formData (UPDATE "c1" (of_Z 4999) "pending" "inv-0000")
                     "connection refused" _) _).
    + reflexivity.
    + vm_compute. left. reflexivity.
Defined.

(** C3: when the submitted amount coerces to [NaN] (a non-numeric string)
    or to a number not above zero, the strict [createInvoice] and
    [updateInvoice] return the validation failure, its [errors] hold a
    message under ["amount"], and no statement is sent. *)
Theorem strict_rejects_amount :
  forall env w id prevState formData,
    let n := ToNumber (get formData "amount") in
    isNaN n = true \/ leb n (of_Z 0) = true ->
    (let r := call (Strict.createInvoice prevState formData) env w in
     exists errs,
       fst r = Fulfilled
                 (Some {| errors := Some errs;
                          Server.message :=
                            Some "Missing fields. Failed to create invoice." |}) /\
       errs !! "amount" = Some [strict_amount_message n] /\
       (forall e, In e (effects_since w (snd r)) -> is_query e = false) /\
       invoices (snd r) = invoices w) /\
    (let r := call (Strict.updateInvoice id prevState formData) env w in
     exists errs,
       fst r = Fulfilled
                 (Some {| errors := Some errs;
                          Server.message :=
                            Some "Missing fields. Failed to update invoice." |}) /\
       errs !! "amount" = Some [strict_amount_message n] /\
       (forall e, In e (effects_since w (snd r)) -> is_query e = false) /\
       invoices (snd r) = invoices w).
Proof.
  intros env w id prevState formData n Hn.
  destruct (strict_safeParse_amount (rawFormData formData) Hn)
    as (error & Hparse & Hmsg).
  split; cbv zeta.
  - rewrite strict_createInvoice_run, Hparse. cbn [fst snd].
    exists (fieldErrors error). split; [reflexivity |].
    split; [exact Hmsg |]. split; [| reflexivity].
    list_effects. intros e He. cbn [In] in He.
    destruct He as [<- | [<- | []]]; reflexivity.
  - rewrite strict_updateInvoice_run, strict_UpdateInvoice_eq, Hparse.
    cbn [fst snd].
    exists (fieldErrors error). split; [reflexivity |].
    split; [exact Hmsg |]. split; [| reflexivity].
    list_effects. intros e [].
Qed.

(** The amount ["abc"] is reported under ["amount"]. *)
Lemma strict_rejects_amount_witness :
  let formData :=
    [("customerId", Str "c1"); ("amount", Str "abc"); ("status", Str "paid")] in
  let r := call (Strict.createInvoice no_state formData) accepting empty_world in
  exists errs,
    fst r = Fulfilled
              (Some {| errors := Some errs;
                       Server.message :=
                         Some "Missing fields. Failed to create invoice." |}) /\
    errs !! "amount" = Some ["Expected number, received nan"] /\
    (forall e, In e (effects_since empty_world (snd r)) -> is_query e = false) /\
    invoices (snd r) = [].
Proof.
  intros formData.
  refine (proj1 (strict_rejects_amount accepting empty_world "inv-0000" no_state
                   formData _)).
  left. reflexivity.
Defined.

(** C4: in the strict [createInvoice] and [updateInvoice] the listing is
    invalidated and the redirect is made only after the statement was
    accepted, in that order, and the signal thrown by [redirect] reaches
    the caller: the [catch] around the statement never receives it. *)
Theorem strict_write_precedes_navigation :
  forall env w id prevState formData,
    write_precedes_navigation env w
      (call (Strict.createInvoice prevState formData) env w) /\
    write_precedes_navigation env w
      (call (Strict.updateInvoice id prevState formData) env w).
Proof.
  intros env w id prevState formData. unfold write_precedes_navigation. split.
  - rewrite strict_createInvoice_run.
    destruct (safeParse Strict.CreateInvoice (rawFormData formData))
      as [data | error]; cbv zeta.
    + destruct (db_error env (insert_of (now env) data) (invoices w)) eqn:E;
        cbn [fst snd]; list_effects.
      * left. intros e He. cbn [In] in He.
        destruct He as [<- | [<- | [<- | []]]]; reflexivity.
      * right.
        exists [Log (LogObject (rawFormData formData));
                Log (LogString (typeof (get formData "amount")))],
               (insert_of (now env) data).
        split; [reflexivity |]. split.
        { intros e He. cbn [In] in He. destruct He as [<- | [<- | []]]; reflexivity. }
        split; [exact E |]. split; reflexivity.
    + cbn [fst snd]. list_effects. left. intros e He. cbn [In] in He.
      destruct He as [<- | [<- | []]]; reflexivity.
  - rewrite strict_updateInvoice_run.
    destruct (safeParse Strict.UpdateInvoice (rawFormData formData))
      as [data | error]; cbv zeta.
    + destruct (db_error env (update_of id data) (invoices w)) eqn:E;
        cbn [fst snd]; list_effects.
      * left. intros e He. cbn [In] in He.
        destruct He as [<- | [<- | []]]; reflexivity.
      * right. exists [], (update_of id data).
        split; [reflexivity |]. split; [intros e [] |].
        split; [exact E |]. split; reflexivity.
    + cbn [fst snd]. list_effects. left. intros e [].
Qed.

(** ** Updating and deleting *)

(** C6: [updateInvoice] never changes the date column: in both versions
    every statement it sends is an UPDATE of the three columns
    [customer_id], [amount] and [status] keyed by the given id, and every
    row of the table keeps its id and its date. *)
Theorem updateInvoice_keeps_date :
  forall env w id prevState formData,
    let frame (w' : World) :=
      (forall q, In (Query q) (effects_since w w') ->
                 exists c a s, q = UPDATE c a s id) /\
      map (fun r => (Server.id r, Server.date r)) (invoices w') =
      map (fun r => (Server.id r, Server.date r)) (invoices w) in
    frame (snd (call (Strict.updateInvoice id prevState formData) env w)) /\
    frame (snd (call (Permissive.updateInvoice id formData) env w)).
Proof.
  intros env w id prevState formData. cbv zeta. split.
  - rewrite strict_updateInvoice_run.
    destruct (safeParse Strict.UpdateInvoice (rawFormData formData))
      as [data | error]; cbv zeta.
    + destruct (db_error env (update_of id data) (invoices w)) eqn:E;
        cbn [fst snd]; list_effects.
      * split; [| reflexivity]. intros q Hq. cbn [In] in Hq.
        destruct Hq as [Hq | [Hq | []]]; try discriminate Hq.
        injection Hq as <-. unfold update_of. eauto.
      * split.
        { intros q Hq. cbn [In] in Hq.
          destruct Hq as [Hq | [Hq | [Hq | []]]]; try discriminate Hq.
          injection Hq as <-. unfold update_of. eauto. }
        rewrite invoices_completed. apply exec_update_frame.
    + cbn [fst snd]. list_effects. split; [intros q [] | reflexivity].
  - rewrite permissive_updateInvoice_run.
    destruct (safeParse Permissive.UpdateInvoice (rawFormData formData))
      as [data | error]; cbv zeta.
    + destruct (db_error env (update_of id data) (invoices w)) eqn:E;
        cbn [fst snd]; list_effects.
      * split; [| reflexivity]. intros q Hq. cbn [In] in Hq.
        destruct Hq as [Hq | []]; try discriminate Hq.
        injection Hq as <-. unfold update_of. eauto.
      * split.
        { intros q Hq. cbn [In] in Hq.
          destruct Hq as [Hq | [Hq | [Hq | []]]]; try discriminate Hq.
          injection Hq as <-. unfold update_of. eauto. }
        rewrite invoices_completed. apply exec_update_frame.
    + cbn [fst snd]. list_effects. split; [intros q [] | reflexivity].
Qed.

(** An update of the only row: its new columns, its date as before. *)
Lemma updateInvoice_keeps_date_witness :
  let w := {| invoices :=
                [ {| Server.id := "inv-0000"; customer_id := "c1";
                     Server.amount := of_Z 4999; Server.status := "pending";
                     Server.date := "2026-01-15" |} ];
              trace := [] |} in
  let formData :=
    [("customerId", Str "c2"); ("amount", Str "10"); ("status", Str "paid")] in
  let w' := snd (call (Strict.updateInvoice "inv-0000" no_state formData)
                   accepting w) in
  map (fun r => (Server.id r, Server.date r)) (invoices w') =
    [("inv-0000", "2026-01-15")] /\
  map customer_id (invoices w') = ["c2"] /\
  map Server.amount (invoices w') = [of_Z 1000].
Proof.
  intros w formData w'.
  split; [| split; vm_compute; reflexivity].
  exact (proj2 (proj1 (updateInvoice_keeps_date accepting w "inv-0000" no_state
                         formData))).
Defined.

(** C7: [deleteInvoice], in both versions, sends a DELETE keyed by the id
    it is given, whatever that id is, and then invalidates the listing; if
    the DELETE is rejected, the error reaches the caller as it is (the
    promise is rejected, nothing is returned) and the listing is not
    invalidated. *)
Theorem deleteInvoice_behaviour :
  forall env w id,
    let expected :=
      match db_error env (DELETE id) (invoices w) with
      | Some msg =>
          (Rejected (PostgresError msg),
           {| invoices := invoices w;
              trace := (trace w ++ [Query (DELETE id)])%list |})
      | None =>
          (Fulfilled None,
           {| invoices :=
                List.filter (fun r => negb (String.eqb (Server.id r) id)) (invoices w);
              trace := (trace w ++ [Query (DELETE id);
                                    Revalidate "/dashboard/invoices"])%list |})
      end in
    call (Strict.deleteInvoice id) env w = expected /\
    call (Permissive.deleteInvoice id) env w = expected.
Proof.
  intros env w id. cbv zeta.
  change (Permissive.deleteInvoice id) with (Strict.deleteInvoice id).
  rewrite deleteInvoice_run.
  destruct (db_error env (DELETE id) (invoices w)); split;
    unfold written, emit; cbn [trace invoices exec];
    rewrite <- ?app_assoc; reflexivity.
Qed.

(** C10: when its DELETE is accepted, [deleteInvoice] invalidates the
    listing exactly once and never redirects; this holds as well when no
    row has the id, in which case the table is left as it was. *)
Theorem deleteInvoice_invalidates_once :
  forall env w id,
    db_error env (DELETE id) (invoices w) = None ->
    let holds (r : Outcome Empty_set * World) :=
      fst r = Fulfilled None /\
      effects_since w (snd r) =
        [Query (DELETE id); Revalidate "/dashboard/invoices"] /\
      length (List.filter (is_revalidate "/dashboard/invoices")
                (effects_since w (snd r))) = 1%nat /\
      (forall url, ~ In (Navigate url) (effects_since w (snd r))) /\
      ((forall r', In r' (invoices w) -> Server.id r' <> id) ->
       invoices (snd r) = invoices w) in
    holds (call (Strict.deleteInvoice id) env w) /\
    holds (call (Permissive.deleteInvoice id) env w).
Proof.
  intros env w id Hdb. cbv zeta.
  change (Permissive.deleteInvoice id) with (Strict.deleteInvoice id).
  rewrite deleteInvoice_run, Hdb. cbn [fst snd].
  assert (Heff : effects_since w
                   (emit (Revalidate listing) (written env (DELETE id) w)) =
                 [Query (DELETE id); Revalidate "/dashboard/invoices"]).
  { apply effects_since_app. unfold written, emit. cbn [trace].
    rewrite <- app_assoc. reflexivity. }
  rewrite Heff.
  assert (H : forall P : Prop, P -> P /\ P) by (intros P p; split; exact p).
  apply H. split; [reflexivity |]. split; [reflexivity |].
  split; [reflexivity |]. split.
  - intros url Hin. cbn [In] in Hin.
    destruct Hin as [Hin | [Hin | []]]; discriminate Hin.
  - intros Habsent. apply (exec_delete_absent (new_id env)). exact Habsent.
Qed.

(** Deleting an id that no row has: the listing is still invalidated. *)
Lemma deleteInvoice_invalidates_once_witness :
  let w := {| invoices :=
                [ {| Server.id := "inv-0000"; customer_id := "c1";
                     Server.amount := of_Z 4999; Server.status := "pending";
                     Server.date := "2026-11-02" |} ];
              trace := [] |} in
  let r := call (Strict.deleteInvoice "inv-0007") accepting w in
  fst r = Fulfilled None /\
  effects_since w (snd r) =
    [Query (DELETE "inv-0007"); Revalidate "/dashboard/invoices"] /\
  invoices (snd r) = invoices w.
Proof.
  intros w.
  destruct (deleteInvoice_invalidates_once accepting w "inv-0007" eq_refl)
    as [(Hout & Heff & _ & _ & Hkeep) _].
  split; [exact Hout |]. split; [exact Heff |].
  apply Hkeep. intros r' [<- | []]. discriminate.
Defined.

(** ** Validation *)

Lemma safeParse_invalid_customerId (schema : InvoiceFields) (raw : RawFormData)
  (issues : list ZodIssue) :
  f_customerId schema ["customerId"] (raw_customerId raw) = INVALID issues ->
  safeParse schema raw =
  SafeParseError
    (issues ++
     issues_of (f_amount schema ["amount"] (raw_amount raw)) ++
     issues_of (f_status schema ["status"] (raw_status raw)))%list.
Proof.
  intros H. unfold safeParse. cbv zeta. rewrite H.
  set (a := f_amount schema _ _). set (s := f_status schema _ _).
  destruct a, s; reflexivity.
Qed.

Lemma safeParse_invalid_status (schema : InvoiceFields) (raw : RawFormData)
  (issues : list ZodIssue) :
  f_status schema ["status"] (raw_status raw) = INVALID issues ->
  safeParse schema raw =
  SafeParseError
    (issues_of (f_customerId schema ["customerId"] (raw_customerId raw)) ++
     issues_of (f_amount schema ["amount"] (raw_amount raw)) ++
     issues)%list.
Proof.
  intros H. unfold safeParse. cbv zeta. rewrite H.
  set (c := f_customerId schema _ _). set (a := f_amount schema _ _).
  destruct c, a; reflexivity.
Qed.

(** C5, as the code has it: under the strict validator the customer field
    fails, with the message "Please select a customer.", exactly when the
    submitted value is not a string (the field is missing, or is a file);
    every string passes, the empty one included. For the input
    [{customerId: "", amount: "0", status: "paid"}], [createInvoice]
    returns one validation error, on the amount field, none on the
    customer field, and sends no statement. *)
Theorem strict_customerId_check :
  forall env w prevState formData,
    let r := call (Strict.createInvoice prevState formData) env w in
    ((forall c, get formData "customerId" <> Str c) ->
     exists errs,
       fst r = Fulfilled
                 (Some {| errors := Some errs;
                          Server.message :=
                            Some "Missing fields. Failed to create invoice." |}) /\
       errs !! "customerId" = Some ["Please select a customer."] /\
       (forall e, In e (effects_since w (snd r)) -> is_query e = false)) /\
    (forall c errs m,
       get formData "customerId" = Str c ->
       fst r = Fulfilled (Some {| errors := Some errs; Server.message := m |}) ->
       errs !! "customerId" = None) /\
    (get formData "customerId" = Str "" ->
     get formData "amount" = Str "0" ->
     get formData "status" = Str "paid" ->
     exists errs,
       fst r = Fulfilled
                 (Some {| errors := Some errs;
                          Server.message :=
                            Some "Missing fields. Failed to create invoice." |}) /\
       errs !! "customerId" = None /\
       errs !! "amount" = Some ["Please enter an amount greater than $0."] /\
       errs !! "status" = None /\
       (forall e, In e (effects_since w (snd r)) -> is_query e = false) /\
       invoices (snd r) = invoices w).
Proof.
  intros env w prevState formData. cbv zeta.
  rewrite strict_createInvoice_run.
  assert (Hquiet : forall e,
             In e (effects_since w (logged formData w)) -> is_query e = false).
  { list_effects. intros e He. cbn [In] in He.
    destruct He as [<- | [<- | []]]; reflexivity. }
  split; [| split].
  - intros Hc.
    assert (Hp : exists issues,
               f_customerId Strict.CreateInvoice ["customerId"]
                 (raw_customerId (rawFormData formData)) = INVALID issues).
    { cbn [Strict.CreateInvoice omit_id_date Strict.FormSchema f_customerId
             customerId rawFormData raw_customerId].
      destruct (get formData "customerId") as [| c | f] eqn:E;
        [| exfalso; apply (Hc c); reflexivity |]; eexists; reflexivity. }
    destruct Hp as [issues Hp].
    pose proof (safeParse_invalid_customerId _ _ _ Hp) as Hparse.
    rewrite Hparse. cbn [fst snd]. eexists. split; [reflexivity |].
    split; [| exact Hquiet].
    rewrite (strict_customerId_messages _ _ Hparse).
    cbn [rawFormData raw_customerId].
    destruct (get formData "customerId") as [| c | f];
      [| exfalso; apply (Hc c) |]; reflexivity.
  - intros c errs m Hc.
    destruct (safeParse Strict.CreateInvoice (rawFormData formData))
      as [data | error] eqn:Hparse; cbv zeta.
    + destruct (db_error env _ (invoices w)); cbn [fst]; intros H;
        discriminate H.
    + cbn [fst]. intros H. injection H as <- _.
      rewrite (strict_customerId_messages _ _ Hparse).
      cbn [rawFormData raw_customerId]. rewrite Hc. reflexivity.
  - intros Hc Ha Hs.
    assert (Hparse : safeParse Strict.CreateInvoice (rawFormData formData) =
              SafeParseError
                [ {| code := too_small; path := ["amount"];
                     Zod.message := "Please enter an amount greater than $0." |} ]).
    { unfold safeParse, rawFormData.
      cbn [raw_customerId raw_amount raw_status].
      rewrite Hc, Ha, Hs. reflexivity. }
    rewrite Hparse. cbn [fst snd]. eexists. split; [reflexivity |].
    split; [reflexivity |]. split; [reflexivity |]. split; [reflexivity |].
    split; [exact Hquiet | reflexivity].
Qed.

(** A form without the customer field, and the form with the empty one. *)
Lemma strict_customerId_check_witness :
  (let formData := [("amount", Str "12.50"); ("status", Str "paid")] in
   let r := call (Strict.createInvoice no_state formData) accepting empty_world in
   exists errs,
     fst r = Fulfilled
               (Some {| errors := Some errs;
                        Server.message :=
                          Some "Missing fields. Failed to create invoice." |}) /\
     errs !! "customerId" = Some ["Please select a customer."] /\
     (forall e, In e (effects_since empty_world (snd r)) -> is_query e = false)) /\
  (let formData :=
     [("customerId", Str ""); ("amount", Str "0"); ("status", Str "paid")] in
   let r := call (Strict.createInvoice no_state formData) accepting empty_world in
   exists errs,
     fst r = Fulfilled
               (Some {| errors := Some errs;
                        Server.message :=
                          Some "Missing fields. Failed to create invoice." |}) /\
     errs !! "customerId" = None /\
     errs !! "amount" = Some ["Please enter an amount greater than $0."] /\
     errs !! "status" = None /\
     (forall e, In e (effects_since empty_world (snd r)) -> is_query e = false) /\
     invoices (snd r) = invoices empty_world).
Proof.
  split; intros formData.
  - apply (proj1 (strict_customerId_check accepting empty_world no_state formData)).
    intros c H. discriminate H.
  - apply (proj2 (proj2 (strict_customerId_check accepting empty_world no_state
                           formData))); reflexivity.
Defined.

(** C5 as stated fails: for [{customerId: "", amount: "0", status: "paid"}]
    the returned errors have no entry for the customer field. *)
Lemma createInvoice_accepts_empty_customerId :
  let formData :=
    [("customerId", Str ""); ("amount", Str "0"); ("status", Str "paid")] in
  exists errs,
    fst (call (Strict.createInvoice no_state formData) accepting empty_world) =
      Fulfilled
        (Some {| errors := Some errs;
                 Server.message :=
                   Some "Missing fields. Failed to create invoice." |}) /\
    errs !! "customerId" = None /\
    errs !! "amount" = Some ["Please enter an amount greater than $0."].
Proof.
  cbv zeta. eexists. split; [vm_compute; reflexivity |].
  split; vm_compute; reflexivity.
Qed.

Lemma permissive_safeParse_rejects (formData : FormData) :
  rejected_by_permissive formData ->
  exists error,
    error <> [] /\
    safeParse Permissive.CreateInvoice (rawFormData formData) =
    SafeParseError error.
Proof.
  intros [Hc | [Ha | Hs]].
  - assert (Hp : exists i,
               f_customerId Permissive.CreateInvoice ["customerId"]
                 (raw_customerId (rawFormData formData)) = INVALID [i]).
    { cbn [Permissive.CreateInvoice omit_id_date Permissive.FormSchema
             f_customerId customerId rawFormData raw_customerId].
      destruct (get formData "customerId") as [| c | f] eqn:E;
        [| exfalso; apply (Hc c); reflexivity |]; eexists; reflexivity. }
    destruct Hp as [i Hp]. eexists. split;
      [| apply safeParse_invalid_customerId, Hp]. discriminate.
  - eexists. split; [| apply safeParse_invalid_amount].
    2:{ cbn [Permissive.CreateInvoice omit_id_date Permissive.FormSchema
               f_amount Zod.amount rawFormData raw_amount].
        unfold coerce_number. rewrite Ha. reflexivity. }
    intros H. apply app_eq_nil in H as [_ H]. discriminate H.
  - assert (Hp : exists i,
               f_status Permissive.CreateInvoice ["status"]
                 (raw_status (rawFormData formData)) = INVALID [i]).
    { cbn [Permissive.CreateInvoice omit_id_date Permissive.FormSchema
             f_status Zod.status rawFormData raw_status].
      destruct (get formData "status") as [| s | f] eqn:E;
        [| unfold enum; rewrite (Hs s eq_refl) |]; eexists; reflexivity. }
    destruct Hp as [i Hp]. eexists. split;
      [| apply safeParse_invalid_status, Hp].
    intros H. apply app_eq_nil in H as [_ H]. apply app_eq_nil in H as [_ H].
    discriminate H.
Qed.

(** C8, as the code has it: in the permissive version, for every form the
    schema rejects (customer missing or not a string, amount coercing to
    [NaN], status missing or outside pending and paid), [createInvoice] and
    [updateInvoice] throw the [ZodError] of the parser before any statement
    is sent: nothing is returned, and the table is unchanged. A missing or
    empty amount is not such a form: it is coerced to 0. *)
Theorem permissive_rejects_by_throwing :
  forall env w id formData,
    rejected_by_permissive formData ->
    exists issues,
      issues <> [] /\
      call (Permissive.createInvoice formData) env w =
        (Rejected (ZodError issues), logged formData w) /\
      call (Permissive.updateInvoice id formData) env w =
        (Rejected (ZodError issues), w) /\
      (forall e, In e (effects_since w (logged formData w)) -> is_query e = false) /\
      invoices (logged formData w) = invoices w.
Proof.
  intros env w id formData H.
  destruct (permissive_safeParse_rejects formData H) as (error & Hne & Hparse).
  exists error. split; [exact Hne |].
  rewrite permissive_createInvoice_run, permissive_updateInvoice_run,
    permissive_UpdateInvoice_eq, Hparse.
  split; [reflexivity |]. split; [reflexivity |]. split; [| reflexivity].
  list_effects. intros e He. cbn [In] in He.
  destruct He as [<- | [<- | []]]; reflexivity.
Qed.

(** The status ["draft"] makes both permissive handlers throw. *)
Lemma permissive_rejects_by_throwing_witness :
  let formData :=
    [("customerId", Str "c1"); ("amount", Str "12.50"); ("status", Str "draft")] in
  exists issues,
    issues <> [] /\
    call (Permissive.createInvoice formData) accepting empty_world =
      (Rejected (ZodError issues), logged formData empty_world) /\
    call (Permissive.updateInvoice "inv-0000" formData) accepting empty_world =
      (Rejected (ZodError issues), empty_world) /\
    (forall e, In e (effects_since empty_world (logged formData empty_world)) ->
               is_query e = false) /\
    invoices (logged formData empty_world) = invoices empty_world.
Proof.
  intros formData.
  apply (permissive_rejects_by_throwing accepting empty_world "inv-0000" formData).
  right. right. intros s H. injection H as <-. reflexivity.
Defined.

(** C8 as stated fails: a form without the amount field is not rejected
    by the permissive [createInvoice]; the missing amount is coerced to 0,
    the INSERT is sent and the row is stored. *)
Lemma permissive_accepts_missing_amount :
  let formData := [("customerId", Str "c1"); ("status", Str "paid")] in
  let r := call (Permissive.createInvoice formData) accepting empty_world in
  get formData "amount" = Null /\
  fst r = Rejected (NEXT_REDIRECT "/dashboard/invoices") /\
  In (Query (INSERT "c1" (of_Z 0) "paid" "2026-11-02"))
    (effects_since empty_world (snd r)) /\
  invoices (snd r) =
    [ {| Server.id := "inv-0000"; customer_id := "c1"; Server.amount := of_Z 0;
         Server.status := "paid"; Server.date := "2026-11-02" |} ].
Proof.
  cbv zeta. split; [reflexivity |]. split; [vm_compute; reflexivity |].
  split; [vm_compute; tauto | vm_compute; reflexivity].
Qed.

(** C9: the strict [createInvoice] and [updateInvoice] never read
    [prevState]: with the same form, clock, database and world, two runs
    that differ only in the previous state settle the same way and leave
    the same world (table and effects). *)
Theorem strict_ignores_prevState :
  forall env w id formData (prevState1 prevState2 : State),
    call (Strict.createInvoice prevState1 formData) env w =
    call (Strict.createInvoice prevState2 formData) env w /\
    call (Strict.updateInvoice id prevState1 formData) env w =
    call (Strict.updateInvoice id prevState2 formData) env w.
Proof.
  intros env w id formData prevState1 prevState2.
  rewrite !strict_createInvoice_run, !strict_updateInvoice_run.
  split; reflexivity.
Qed.

(** ** What the two schemas accept *)

Lemma includes_status (s : string) :
  includes ["pending"; "paid"] s = true <-> s = "pending" \/ s = "paid".
Proof.
  unfold includes. cbn [existsb].
  rewrite !orb_true_iff, !String.eqb_eq. intuition discriminate.
Qed.

Lemma positive_of_not_leb (n : number) :
  isNaN n = false -> leb n (of_Z 0) = false -> ltb (of_Z 0) n = true.
Proof.
  destruct n as [s | s | | s m e]; try destruct s; cbn; intros H1 H2;
    try discriminate; reflexivity.
Qed.

(** The three field parsers of the strict schema, one by one. *)
Lemma strict_customerId_parser (v : value) :
  f_customerId Strict.CreateInvoice ["customerId"] v =
  match v with
  | Str c => OK c
  | _ => INVALID [ {| code := invalid_type; path := ["customerId"];
                      Zod.message := "Please select a customer." |} ]
  end.
Proof. destruct v; reflexivity. Qed.

Lemma strict_amount_parser (v : value) :
  f_amount Strict.CreateInvoice ["amount"] v =
  if isNaN (ToNumber v) then
    INVALID [ {| code := invalid_type; path := ["amount"];
                 Zod.message := "Expected number, received nan" |} ]
  else if leb (ToNumber v) (of_Z 0) then
    INVALID [ {| code := too_small; path := ["amount"];
                 Zod.message := "Please enter an amount greater than $0." |} ]
  else OK (ToNumber v).
Proof.
  cbn [Strict.CreateInvoice omit_id_date Strict.FormSchema f_amount Zod.amount].
  unfold coerce_number, run_check. cbn [map concat gt_value gt_message].
  destruct (isNaN (ToNumber v)); [reflexivity |].
  destruct (leb (ToNumber v) (of_Z 0)); reflexivity.
Qed.

Lemma strict_status_parser (v : value) :
  f_status Strict.CreateInvoice ["status"] v =
  match v with
  | Str s =>
      if includes ["pending"; "paid"] s then OK s
      else INVALID [ {| code := invalid_enum_value; path := ["status"];
                        Zod.message :=
                          "Invalid enum value. Expected 'pending' | 'paid', received '"
                            ++ s ++ "'" |} ]
  | _ => INVALID [ {| code := invalid_type; path := ["status"];
                      Zod.message := "Please select an invoice status." |} ]
  end.
Proof. destruct v; reflexivity. Qed.

Lemma strict_safeParse_inv (raw : RawFormData) (data : InvoiceData) :
  safeParse Strict.CreateInvoice raw = SafeParseSuccess data ->
  raw_customerId raw = Str (d_customerId data) /\
  d_amount data = ToNumber (raw_amount raw) /\
  ltb (of_Z 0) (d_amount data) = true /\
  raw_status raw = Str (d_status data) /\
  includes ["pending"; "paid"] (d_status data) = true.
Proof.
  unfold safeParse. cbv zeta.
  rewrite strict_customerId_parser, strict_amount_parser, strict_status_parser.
  destruct (raw_customerId raw) as [| c | f]; try discriminate.
  destruct (isNaN (ToNumber (raw_amount raw))) eqn:Hnan; try discriminate.
  destruct (leb (ToNumber (raw_amount raw)) (of_Z 0)) eqn:Hle; try discriminate.
  destruct (raw_status raw) as [| s | f]; try discriminate.
  destruct (includes ["pending"; "paid"] s) eqn:Hin; try discriminate.
  intros H. injection H as <-. cbn [d_customerId d_amount d_status].
  split; [reflexivity |]. split; [reflexivity |].
  split; [apply positive_of_not_leb; assumption |].
  split; [reflexivity | exact Hin].
Qed.

(** X1: the strict schema accepts a form exactly when the customer is a
    string, the amount coerces to a number above zero, and the status is
    the string pending or paid; the data it returns are those values. *)
Theorem strict_schema_accepts_iff (raw : RawFormData) (data : InvoiceData) :
  safeParse Strict.CreateInvoice raw = SafeParseSuccess data <->
  raw_customerId raw = Str (d_customerId data) /\
  d_amount data = ToNumber (raw_amount raw) /\
  ltb (of_Z 0) (d_amount data) = true /\
  raw_status raw = Str (d_status data) /\
  (d_status data = "pending" \/ d_status data = "paid").
Proof.
  split.
  - intros H. apply strict_safeParse_inv in H as (Hc & Ha & Hpos & Hs & Hin).
    apply includes_status in Hin. auto.
  - intros (Hc & Ha & Hpos & Hs & Hin). destruct data as [c a s].
    cbn [d_customerId d_amount d_status] in *. subst a.
    apply strict_safeParse_valid; try assumption.
    apply includes_status, Hin.
Qed.

(** The field parsers of the permissive schema. *)
Lemma permissive_customerId_parser (v : value) :
  f_customerId Permissive.CreateInvoice ["customerId"] v =
  match v with
  | Str c => OK c
  | _ => INVALID [ {| code := invalid_type; path := ["customerId"];
                      Zod.message := "Expected string, received " ++ getParsedType v |} ]
  end.
Proof. destruct v; reflexivity. Qed.

Lemma permissive_amount_parser (v : value) :
  f_amount Permissive.CreateInvoice ["amount"] v =
  if isNaN (ToNumber v) then
    INVALID [ {| code := invalid_type; path := ["amount"];
                 Zod.message := "Expected number, received nan" |} ]
  else OK (ToNumber v).
Proof.
  cbn [Permissive.CreateInvoice omit_id_date Permissive.FormSchema f_amount
         Zod.amount].
  unfold coerce_number. cbn [map concat].
  destruct (isNaN (ToNumber v)); reflexivity.
Qed.

Lemma permissive_status_parser (v : value) :
  f_status Permissive.CreateInvoice ["status"] v =
  match v with
  | Str s =>
      if includes ["pending"; "paid"] s then OK s
      else INVALID [ {| code := invalid_enum_value; path := ["status"];
                        Zod.message :=
                          "Invalid enum value. Expected 'pending' | 'paid', received '"
                            ++ s ++ "'" |} ]
  | _ => INVALID [ {| code := invalid_type; path := ["status"];
                      Zod.message :=
                        "Expected 'pending' | 'paid', received " ++ getParsedType v |} ]
  end.
Proof. destruct v; reflexivity. Qed.

Lemma permissive_safeParse_inv (raw : RawFormData) (data : InvoiceData) :
  safeParse Permissive.CreateInvoice raw = SafeParseSuccess data ->
  raw_customerId raw = Str (d_customerId data) /\
  d_amount data = ToNumber (raw_amount raw) /\
  isNaN (d_amount data) = false /\
  raw_status raw = Str (d_status data) /\
  includes ["pending"; "paid"] (d_status data) = true.
Proof.
  unfold safeParse. cbv zeta.
  rewrite permissive_customerId_parser, permissive_amount_parser,
    permissive_status_parser.
  destruct (raw_customerId raw) as [| c | f]; try discriminate.
  destruct (isNaN (ToNumber (raw_amount raw))) eqn:Hnan; try discriminate.
  destruct (raw_status raw) as [| s | f]; try discriminate.
  destruct (includes ["pending"; "paid"] s) eqn:Hin; try discriminate.
  intros H. injection H as <-. cbn [d_customerId d_amount d_status].
  split; [reflexivity |]. split; [reflexivity |]. split; [exact Hnan |].
  split; [reflexivity | exact Hin].
Qed.

Lemma permissive_safeParse_valid (raw : RawFormData) (c s : string) :
  raw_customerId raw = Str c ->
  isNaN (ToNumber (raw_amount raw)) = false ->
  raw_status raw = Str s ->
  includes ["pending"; "paid"] s = true ->
  safeParse Permissive.CreateInvoice raw =
  SafeParseSuccess {| d_customerId := c; d_amount := ToNumber (raw_amount raw);
                      d_status := s |}.
Proof.
  intros Hc Hnan Hs Hin. unfold safeParse. cbv zeta.
  rewrite permissive_customerId_parser, permissive_amount_parser,
    permissive_status_parser, Hc, Hnan, Hs, Hin.
  reflexivity.
Qed.

(** X2: the permissive schema accepts a form exactly when the customer is
    a string, the amount coerces to anything but [NaN], and the status is
    pending or paid: zero, negative and missing amounts pass. *)
Theorem permissive_schema_accepts_iff (raw : RawFormData) (data : InvoiceData) :
  safeParse Permissive.CreateInvoice raw = SafeParseSuccess data <->
  raw_customerId raw = Str (d_customerId data) /\
  d_amount data = ToNumber (raw_amount raw) /\
  isNaN (d_amount data) = false /\
  raw_status raw = Str (d_status data) /\
  (d_status data = "pending" \/ d_status data = "paid").
Proof.
  split.
  - intros H. apply permissive_safeParse_inv in H as (Hc & Ha & Hnan & Hs & Hin).
    apply includes_status in Hin. auto.
  - intros (Hc & Ha & Hnan & Hs & Hin). destruct data as [c a s].
    cbn [d_customerId d_amount d_status] in *. subst a.
    apply permissive_safeParse_valid; try assumption.
    apply includes_status, Hin.
Qed.

(** ** The error report of the strict handlers *)

Lemma strict_issues (raw : RawFormData) (error : list ZodIssue) :
  safeParse Strict.CreateInvoice raw = SafeParseError error ->
  error =
  (issues_of (f_customerId Strict.CreateInvoice ["customerId"] (raw_customerId raw)) ++
   issues_of (f_amount Strict.CreateInvoice ["amount"] (raw_amount raw)) ++
   issues_of (f_status Strict.CreateInvoice ["status"] (raw_status raw)))%list.
Proof. apply safeParse_error. Qed.

(** Unfolds the issues of a failed strict parse and splits on the fields. *)
Ltac strict_cases raw :=
  rewrite fieldErrors_lookup, !messages_at_app;
  rewrite strict_customerId_parser, strict_amount_parser, strict_status_parser;
  destruct (raw_customerId raw) as [| ? | ?];
  destruct (isNaN (ToNumber (raw_amount raw)));
  try destruct (leb (ToNumber (raw_amount raw)) (of_Z 0));
  destruct (raw_status raw) as [| ? | ?];
  repeat match goal with
    | |- context [includes ?vs ?x] => destruct (includes vs x)
    end.

Lemma strict_amount_messages (raw : RawFormData) (error : list ZodIssue) :
  safeParse Strict.CreateInvoice raw = SafeParseError error ->
  fieldErrors error !! "amount" =
  if isNaN (ToNumber (raw_amount raw)) then Some ["Expected number, received nan"]
  else if leb (ToNumber (raw_amount raw)) (of_Z 0)
       then Some ["Please enter an amount greater than $0."]
       else None.
Proof.
  intros H. apply strict_issues in H as ->. strict_cases raw; reflexivity.
Qed.

Lemma strict_status_messages (raw : RawFormData) (error : list ZodIssue) :
  safeParse Strict.CreateInvoice raw = SafeParseError error ->
  fieldErrors error !! "status" =
  match raw_status raw with
  | Str s =>
      if includes ["pending"; "paid"] s then None
      else Some ["Invalid enum value. Expected 'pending' | 'paid', received '"
                   ++ s ++ "'"]
  | _ => Some ["Please select an invoice status."]
  end.
Proof.
  intros H. apply strict_issues in H as ->. strict_cases raw; reflexivity.
Qed.

Lemma strict_other_messages (raw : RawFormData) (error : list ZodIssue)
  (k : string) :
  safeParse Strict.CreateInvoice raw = SafeParseError error ->
  k <> "customerId" -> k <> "amount" -> k <> "status" ->
  fieldErrors error !! k = None.
Proof.
  intros H Hc Ha Hs. apply strict_issues in H as ->.
  assert (Ec : String.eqb "customerId" k = false)
    by (apply String.eqb_neq; congruence).
  assert (Ea : String.eqb "amount" k = false)
    by (apply String.eqb_neq; congruence).
  assert (Es : String.eqb "status" k = false)
    by (apply String.eqb_neq; congruence).
  strict_cases raw;
    cbn [messages_at flat_map issues_of path app];
    rewrite ?Ec, ?Ea, ?Es; reflexivity.
Qed.

(** A failed strict parse always reports at least one of the fields. *)
Lemma strict_some_message (raw : RawFormData) (error : list ZodIssue) :
  safeParse Strict.CreateInvoice raw = SafeParseError error ->
  is_Some (fieldErrors error !! "customerId") \/
  is_Some (fieldErrors error !! "amount") \/
  is_Some (fieldErrors error !! "status").
Proof.
  intros H.
  rewrite (strict_customerId_messages _ _ H), (strict_amount_messages _ _ H),
    (strict_status_messages _ _ H).
  unfold safeParse in H. cbv zeta in H.
  rewrite strict_customerId_parser, strict_amount_parser, strict_status_parser in H.
  destruct (raw_customerId raw) as [| c | f]; eauto.
  destruct (isNaN (ToNumber (raw_amount raw))); eauto.
  destruct (leb (ToNumber (raw_amount raw)) (of_Z 0)); eauto.
  destruct (raw_status raw) as [| s | f]; eauto.
  destruct (includes ["pending"; "paid"] s); eauto. discriminate H.
Qed.

(** The errors either strict handler returns come from a failed parse. *)
Lemma strict_returned_errors env w id prevState formData errs m :
  fst (call (Strict.createInvoice prevState formData) env w) =
    Fulfilled (Some {| errors := Some errs; Server.message := m |}) \/
  fst (call (Strict.updateInvoice id prevState formData) env w) =
    Fulfilled (Some {| errors := Some errs; Server.message := m |}) ->
  exists error,
    safeParse Strict.CreateInvoice (rawFormData formData) = SafeParseError error /\
    errs = fieldErrors error.
Proof.
  rewrite strict_createInvoice_run, strict_updateInvoice_run,
    strict_UpdateInvoice_eq.
  destruct (safeParse Strict.CreateInvoice (rawFormData formData))
    as [data | error]; cbv zeta.
  - destruct (db_error env (insert_of (now env) data) (invoices w));
      destruct (db_error env (update_of id data) (invoices w));
      cbn [fst]; intros [H | H]; discriminate H.
  - cbn [fst]. intros [H | H]; injection H as <- _; eauto.
Qed.

(** X3: the [errors] object returned by the strict [createInvoice] and
    [updateInvoice] is determined field by field: the customer entry is
    present exactly when the value is not a string; the amount entry
    carries the type message for [NaN] and the greater-than-zero message
    for a number not above zero; the status entry carries the custom
    message when the value is not a string and zod's enum message when it
    is a string outside pending and paid. No other key occurs, every entry
    has one message, and at least one entry is present. *)
Theorem strict_error_report :
  forall env w id prevState formData errs m,
    fst (call (Strict.createInvoice prevState formData) env w) =
      Fulfilled (Some {| errors := Some errs; Server.message := m |}) \/
    fst (call (Strict.updateInvoice id prevState formData) env w) =
      Fulfilled (Some {| errors := Some errs; Server.message := m |}) ->
    let n := ToNumber (get formData "amount") in
    errs !! "customerId" =
      match get formData "customerId" with
      | Str _ => None
      | _ => Some ["Please select a customer."]
      end /\
    errs !! "amount" =
      (if isNaN n then Some ["Expected number, received nan"]
       else if leb n (of_Z 0) then Some ["Please enter an amount greater than $0."]
            else None) /\
    errs !! "status" =
      match get formData "status" with
      | Str s =>
          if includes ["pending"; "paid"] s then None
          else Some ["Invalid enum value. Expected 'pending' | 'paid', received '"
                       ++ s ++ "'"]
      | _ => Some ["Please select an invoice status."]
      end /\
    (forall k, k <> "customerId" -> k <> "amount" -> k <> "status" ->
               errs !! k = None) /\
    (is_Some (errs !! "customerId") \/ is_Some (errs !! "amount") \/
     is_Some (errs !! "status")).
Proof.
  intros env w id prevState formData errs m H n.
  destruct (strict_returned_errors _ _ _ _ _ _ _ H) as (error & Hparse & ->).
  split; [exact (strict_customerId_messages _ _ Hparse) |].
  split; [exact (strict_amount_messages _ _ Hparse) |].
  split; [exact (strict_status_messages _ _ Hparse) |].
  split; [| exact (strict_some_message _ _ Hparse)].
  intros k Hc Ha Hs. exact (strict_other_messages _ _ k Hparse Hc Ha Hs).
Qed.

(** A form with nothing in it: all three fields are reported. *)
Lemma strict_error_report_witness :
  exists errs,
    fst (call (Strict.updateInvoice "inv-0000" no_state []) accepting empty_world) =
      Fulfilled
        (Some {| errors := Some errs;
                 Server.message := Some "Missing fields. Failed to update invoice." |}) /\
    errs !! "customerId" = Some ["Please select a customer."] /\
    errs !! "amount" = Some ["Please enter an amount greater than $0."] /\
    errs !! "status" = Some ["Please select an invoice status."] /\
    errs !! "date" = None.
Proof.
  eexists. split; [vm_compute; reflexivity |].
  pose proof (strict_error_report accepting empty_world "inv-0000" no_state []
                _ _ (or_intror eq_refl)) as (Hc & Ha & Hs & Hk & _).
  split; [exact Hc |]. split; [exact Ha |]. split; [exact Hs |].
  apply Hk; discriminate.
Defined.

(** ** How the handlers settle *)

Lemma strict_form_parse formData c n s :
  strict_form formData c n s <->
  safeParse Strict.CreateInvoice (rawFormData formData) =
  SafeParseSuccess {| d_customerId := c; d_amount := n; d_status := s |}.
Proof.
  unfold strict_form. split.
  - intros (Hc & -> & Hpos & Hs & Hin).
    apply strict_safeParse_valid; try assumption. apply includes_status, Hin.
  - intros H. apply strict_safeParse_inv in H as (Hc & Ha & Hpos & Hs & Hin).
    apply includes_status in Hin. auto.
Qed.

Lemma permissive_form_parse formData c n s :
  permissive_form formData c n s <->
  safeParse Permissive.CreateInvoice (rawFormData formData) =
  SafeParseSuccess {| d_customerId := c; d_amount := n; d_status := s |}.
Proof.
  unfold permissive_form. split.
  - intros (Hc & -> & Hnan & Hs & Hin).
    apply permissive_safeParse_valid; try assumption. apply includes_status, Hin.
  - intros H. apply permissive_safeParse_inv in H as (Hc & Ha & Hnan & Hs & Hin).
    apply includes_status in Hin. auto.
Qed.

Lemma quiet_logs (evs : list Effect) :
  (forall e, In e evs -> is_log e = true \/ is_query e = true) -> quiet evs.
Proof.
  intros H e He. destruct (H e He) as [Hl | Hq]; destruct e; try discriminate;
    reflexivity.
Qed.

(** The strict contract, for a run that starts from a world [w0] reached
    from [w] by logging only. *)
Lemma strict_contract_of_run env w formData statement failed
  (error_world : string -> Statement -> World) w0 l0 report :
  trace w0 = (trace w ++ l0)%list ->
  invoices w0 = invoices w ->
  (forall e, In e l0 -> is_log e = true) ->
  Server.message failed <> None ->
  (forall error, Server.message (report error) <> None) ->
  (forall msg q,
      invoices (error_world msg q) = invoices w /\
      exists l, trace (error_world msg q) = (trace w ++ l)%list /\
                forall e, In e l -> is_log e = true \/ is_query e = true) ->
  strict_contract env w formData statement
    match safeParse Strict.CreateInvoice (rawFormData formData) with
    | SafeParseError error => (Fulfilled (Some (report error)), w0)
    | SafeParseSuccess data =>
        let q := statement (d_customerId data) (mul (d_amount data) (of_Z 100))
                   (d_status data) in
        match db_error env q (invoices w) with
        | Some msg => (Fulfilled (Some failed), error_world msg q)
        | None => (Rejected (NEXT_REDIRECT listing), completed env q w0)
        end
    end.
Proof.
  intros Htrace Hinv Hlogs Hfailed Hreport Herr. unfold strict_contract.
  destruct (safeParse Strict.CreateInvoice (rawFormData formData))
    as [[c n s] | error] eqn:Hparse; cbv zeta;
    cbn [d_customerId d_amount d_status].
  - destruct (db_error env (statement c (mul n (of_Z 100)) s) (invoices w))
      as [msg |] eqn:Hdb; cbn [fst snd].
    + split; [intros e H; discriminate H |]. split; [discriminate |].
      split.
      { intros st H. injection H as <-. split; [exact Hfailed |].
        destruct (Herr msg (statement c (mul n (of_Z 100)) s))
          as (Hi & l & Hl & Hq).
        split; [exact Hi |].
        rewrite (effects_since_app _ _ _ Hl). apply quiet_logs, Hq. }
      split; [intros H; discriminate H |].
      intros (c' & n' & s' & Hform & Hdb').
      apply strict_form_parse in Hform. rewrite Hparse in Hform.
      injection Hform as <- <- <-. congruence.
    + split; [intros e H; injection H as <-; reflexivity |].
      split; [discriminate |]. split; [intros st H; discriminate H |].
      split; [| reflexivity]. intros _. exists c, n, s.
      split; [apply strict_form_parse, Hparse | exact Hdb].
  - cbn [fst snd].
    split; [intros e H; discriminate H |]. split; [discriminate |].
    split.
    { intros st H. injection H as <-. split; [apply Hreport |].
      split; [exact Hinv |].
      rewrite (effects_since_app _ _ _ Htrace). apply quiet_logs.
      intros e He. left. apply Hlogs, He. }
    split; [intros H; discriminate H |].
    intros (c & n & s & Hform & _). apply strict_form_parse in Hform.
    rewrite Hparse in Hform. discriminate Hform.
Qed.

(** X4: the three outcomes of the strict [createInvoice] and
    [updateInvoice], as a decision table. The promise is rejected only by
    the signal of [redirect], and exactly when the form is accepted and the
    database accepts the statement; otherwise a state with a message is
    returned, the table is unchanged and neither [revalidatePath] nor
    [redirect] was called. The promise never resolves to [undefined] and
    never carries a zod or database error. *)
Theorem strict_handlers_contract :
  forall env w id prevState formData,
    strict_contract env w formData
      (fun c a s => INSERT c a s (date_string (now env)))
      (call (Strict.createInvoice prevState formData) env w) /\
    strict_contract env w formData
      (fun c a s => UPDATE c a s id)
      (call (Strict.updateInvoice id prevState formData) env w).
Proof.
  intros env w id prevState formData. split.
  - rewrite strict_createInvoice_run.
    apply (strict_contract_of_run env w formData
             (fun c a s => INSERT c a s (date_string (now env))) create_failed
             (fun _ q => emit (Query q) (logged formData w))
             (logged formData w)
             [Log (LogObject (rawFormData formData));
              Log (LogString (typeof (get formData "amount")))]
             (fun error =>
                {| errors := Some (fieldErrors error);
                   Server.message :=
                     Some "Missing fields. Failed to create invoice." |})).
    + apply trace_logged.
    + reflexivity.
    + intros e He. cbn [In] in He. destruct He as [<- | [<- | []]]; reflexivity.
    + discriminate.
    + discriminate.
    + intros msg q. split; [reflexivity |]. eexists. split.
      * unfold logged, emit. cbn [trace]. rewrite <- !app_assoc. reflexivity.
      * intros e He. cbn [In app] in He.
        destruct He as [<- | [<- | [<- | []]]]; auto.
  - rewrite strict_updateInvoice_run, strict_UpdateInvoice_eq.
    apply (strict_contract_of_run env w formData
             (fun c a s => UPDATE c a s id) update_failed
             (fun msg q => emit (LogError (PostgresError msg)) (emit (Query q) w))
             w []
             (fun error =>
                {| errors := Some (fieldErrors error);
                   Server.message :=
                     Some "Missing fields. Failed to update invoice." |})).
    + symmetry. apply app_nil_r.
    + reflexivity.
    + intros e [].
    + discriminate.
    + discriminate.
    + intros msg q. split; [reflexivity |]. eexists. split.
      * unfold emit. cbn [trace]. rewrite <- !app_assoc. reflexivity.
      * intros e He. cbn [In app] in He.
        destruct He as [<- | [<- | []]]; auto.
Qed.

Lemma permissive_contract_of_run env w formData statement w0 l0 :
  trace w0 = (trace w ++ l0)%list ->
  invoices w0 = invoices w ->
  (forall e, In e l0 -> is_log e = true) ->
  permissive_contract env w formData statement
    match safeParse Permissive.CreateInvoice (rawFormData formData) with
    | SafeParseError error => (Rejected (ZodError error), w0)
    | SafeParseSuccess data =>
        let q := statement (d_customerId data) (mul (d_amount data) (of_Z 100))
                   (d_status data) in
        match db_error env q (invoices w) with
        | Some msg => (Rejected (PostgresError msg), emit (Query q) w0)
        | None => (Rejected (NEXT_REDIRECT listing), completed env q w0)
        end
    end.
Proof.
  intros Htrace Hinv Hlogs. unfold permissive_contract.
  assert (Hquiet0 : quiet (effects_since w w0)).
  { rewrite (effects_since_app _ _ _ Htrace). apply quiet_logs.
    intros e He. left. apply Hlogs, He. }
  destruct (safeParse Permissive.CreateInvoice (rawFormData formData))
    as [[c n s] | error] eqn:Hparse; cbv zeta;
    cbn [d_customerId d_amount d_status].
  - assert (Hform : permissive_form formData c n s)
      by (apply permissive_form_parse, Hparse).
    assert (Huniq : forall c' n' s', permissive_form formData c' n' s' ->
                                     c' = c /\ n' = n /\ s' = s).
    { intros c' n' s' H. apply permissive_form_parse in H.
      rewrite Hparse in H. injection H as <- <- <-. auto. }
    destruct (db_error env (statement c (mul n (of_Z 100)) s) (invoices w))
      as [msg |] eqn:Hdb; cbn [fst snd].
    + split; [discriminate |].
      split.
      { split; [intros [issues H]; discriminate H |].
        intros H. exfalso. apply H. eauto. }
      split.
      { intros msg'. split.
        - intros H. injection H as <-. exists c, n, s. auto.
        - intros (c' & n' & s' & H & Hdb').
          destruct (Huniq _ _ _ H) as (-> & -> & ->). congruence. }
      split.
      { split; [intros H; discriminate H |].
        intros (c' & n' & s' & H & Hdb').
        destruct (Huniq _ _ _ H) as (-> & -> & ->). congruence. }
      intros _. split; [exact Hinv |].
      assert (Ht : trace (emit (Query (statement c (mul n (of_Z 100)) s)) w0) =
                   (trace w ++ (l0 ++ [Query (statement c (mul n (of_Z 100)) s)]))%list).
      { unfold emit. cbn [trace]. rewrite Htrace, <- app_assoc. reflexivity. }
      rewrite (effects_since_app _ _ _ Ht). apply quiet_logs.
      intros e He. apply in_app_or in He as [He | [<- | []]]; auto.
    + split; [discriminate |].
      split.
      { split; [intros [issues H]; discriminate H |].
        intros H. exfalso. apply H. eauto. }
      split.
      { intros msg. split; [intros H; discriminate H |].
        intros (c' & n' & s' & H & Hdb').
        destruct (Huniq _ _ _ H) as (-> & -> & ->). congruence. }
      split.
      { split; [| reflexivity]. intros _. exists c, n, s. auto. }
      intros H. exfalso. apply H. reflexivity.
  - cbn [fst snd].
    assert (Hnone : ~ exists c n s, permissive_form formData c n s).
    { intros (c & n & s & H). apply permissive_form_parse in H.
      rewrite Hparse in H. discriminate H. }
    split; [discriminate |].
    split; [split; [intros _; exact Hnone | intros _; eauto] |].
    split.
    { intros msg. split; [intros H; discriminate H |].
      intros (c & n & s & H & _). exfalso. apply Hnone. eauto. }
    split.
    { split; [intros H; discriminate H |].
      intros (c & n & s & H & _). exfalso. apply Hnone. eauto. }
    intros _. split; [exact Hinv | exact Hquiet0].
Qed.

(** X5: how the permissive [createInvoice] and [updateInvoice] settle.
    The promise is always rejected: with the [ZodError] exactly for the
    forms the schema refuses, with the database's own error exactly when
    the statement is refused, and with the signal of [redirect] exactly
    when the statement is accepted. Short of the redirect the table is
    unchanged and neither [revalidatePath] nor [redirect] was called. *)
Theorem permissive_handlers_contract :
  forall env w id formData,
    permissive_contract env w formData
      (fun c a s => INSERT c a s (date_string (now env)))
      (call (Permissive.createInvoice formData) env w) /\
    permissive_contract env w formData
      (fun c a s => UPDATE c a s id)
      (call (Permissive.updateInvoice id formData) env w).
Proof.
  intros env w id formData. split.
  - rewrite permissive_createInvoice_run.
    apply (permissive_contract_of_run env w formData
             (fun c a s => INSERT c a s (date_string (now env)))
             (logged formData w)
             [Log (LogObject (rawFormData formData));
              Log (LogString (typeof (get formData "amount")))]).
    + apply trace_logged.
    + reflexivity.
    + intros e He. cbn [In] in He. destruct He as [<- | [<- | []]]; reflexivity.
  - rewrite permissive_updateInvoice_run, permissive_UpdateInvoice_eq.
    apply (permissive_contract_of_run env w formData
             (fun c a s => UPDATE c a s id) w []).
    + symmetry. apply app_nil_r.
    + reflexivity.
    + intros e [].
Qed.

(** ** The table after a call *)

Lemma strict_implies_permissive_form formData c n s :
  strict_form formData c n s -> permissive_form formData c n s.
Proof.
  intros (Hc & Hn & Hpos & Hs & Hin).
  apply ltb_zero_positive in Hpos as [Hnan _].
  unfold permissive_form. auto.
Qed.

Lemma strict_createInvoice_accepted env w prevState formData c n s :
  strict_form formData c n s ->
  let q := INSERT c (mul n (of_Z 100)) s (date_string (now env)) in
  db_error env q (invoices w) = None ->
  call (Strict.createInvoice prevState formData) env w =
  (Rejected (NEXT_REDIRECT listing), completed env q (logged formData w)).
Proof.
  intros Hform q Hdb. apply strict_form_parse in Hform.
  rewrite strict_createInvoice_run, Hform. cbv zeta. unfold insert_of.
  cbn [d_customerId d_amount d_status]. fold q. rewrite Hdb. reflexivity.
Qed.

Lemma strict_updateInvoice_accepted env w id prevState formData c n s :
  strict_form formData c n s ->
  let q := UPDATE c (mul n (of_Z 100)) s id in
  db_error env q (invoices w) = None ->
  call (Strict.updateInvoice id prevState formData) env w =
  (Rejected (NEXT_REDIRECT listing), completed env q w).
Proof.
  intros Hform q Hdb. apply strict_form_parse in Hform.
  rewrite strict_updateInvoice_run, strict_UpdateInvoice_eq, Hform. cbv zeta.
  unfold update_of. cbn [d_customerId d_amount d_status]. fold q.
  rewrite Hdb. reflexivity.
Qed.

Lemma permissive_createInvoice_accepted env w formData c n s :
  permissive_form formData c n s ->
  let q := INSERT c (mul n (of_Z 100)) s (date_string (now env)) in
  db_error env q (invoices w) = None ->
  call (Permissive.createInvoice formData) env w =
  (Rejected (NEXT_REDIRECT listing), completed env q (logged formData w)).
Proof.
  intros Hform q Hdb. apply permissive_form_parse in Hform.
  rewrite permissive_createInvoice_run, Hform. cbv zeta. unfold insert_of.
  cbn [d_customerId d_amount d_status]. fold q. rewrite Hdb. reflexivity.
Qed.

Lemma permissive_updateInvoice_accepted env w id formData c n s :
  permissive_form formData c n s ->
  let q := UPDATE c (mul n (of_Z 100)) s id in
  db_error env q (invoices w) = None ->
  call (Permissive.updateInvoice id formData) env w =
  (Rejected (NEXT_REDIRECT listing), completed env q w).
Proof.
  intros Hform q Hdb. apply permissive_form_parse in Hform.
  rewrite permissive_updateInvoice_run, permissive_UpdateInvoice_eq, Hform.
  cbv zeta. unfold update_of. cbn [d_customerId d_amount d_status]. fold q.
  rewrite Hdb. reflexivity.
Qed.

Lemma exec_update_lookup fresh c a s i (table : list Invoice) (k : nat) :
  exec fresh (UPDATE c a s i) table !! k =
  (fun r => if String.eqb (Server.id r) i then set_columns c a s r else r)
    <$> table !! k.
Proof.
  cbn [exec]. revert k. induction table as [| r table IH]; intros k.
  - destruct k; reflexivity.
  - destruct k as [| k]; [reflexivity |]. cbn [map]. apply IH.
Qed.

Lemma exec_update_absent fresh c a s i table :
  (forall r, In r table -> Server.id r <> i) ->
  exec fresh (UPDATE c a s i) table = table.
Proof.
  cbn [exec]. induction table as [| r table IH]; intros H; [reflexivity |].
  cbn [map]. rewrite IH by (intros r' Hr'; apply H; right; exact Hr').
  destruct (String.eqb_spec (Server.id r) i) as [E | _]; [| reflexivity].
  exfalso. apply (H r); [left; reflexivity | exact E].
Qed.

Lemma exec_delete_In fresh i table (r : Invoice) :
  In r (exec fresh (DELETE i) table) <-> In r table /\ Server.id r <> i.
Proof.
  cbn [exec]. rewrite filter_In, negb_true_iff, String.eqb_neq. reflexivity.
Qed.

(** X6: an accepted [updateInvoice] rewrites, in place, every row whose id
    is the one given: the row keeps its position, id and date and takes the
    submitted customer and status and the amount times 100; every other row
    is left exactly as it was. *)
Theorem updateInvoice_rewrites_row :
  forall env w id prevState formData c n s,
    let q := UPDATE c (mul n (of_Z 100)) s id in
    let rewritten (table' : list Invoice) :=
      forall (k : nat),
        table' !! k =
        (fun r =>
           if String.eqb (Server.id r) id
           then {| Server.id := Server.id r; customer_id := c;
                   Server.amount := mul n (of_Z 100); Server.status := s;
                   Server.date := Server.date r |}
           else r) <$> invoices w !! k in
    db_error env q (invoices w) = None ->
    (strict_form formData c n s ->
     rewritten (invoices (snd (call (Strict.updateInvoice id prevState formData)
                                 env w)))) /\
    (permissive_form formData c n s ->
     rewritten (invoices (snd (call (Permissive.updateInvoice id formData)
                                 env w)))).
Proof.
  intros env w id prevState formData c n s q rewritten Hdb. split; intros Hform k.
  - rewrite (strict_updateInvoice_accepted env w id prevState formData c n s Hform Hdb).
    cbn [snd]. rewrite invoices_completed. apply exec_update_lookup.
  - rewrite (permissive_updateInvoice_accepted env w id formData c n s Hform Hdb).
    cbn [snd]. rewrite invoices_completed. apply exec_update_lookup.
Qed.

(** The second of two rows is updated; the first is untouched. *)
Lemma updateInvoice_rewrites_row_witness :
  let row i c a s d :=
    {| Server.id := i; customer_id := c; Server.amount := of_Z a;
       Server.status := s; Server.date := d |} in
  let w := {| invoices := [ row "inv-0000" "c1" 4999 "pending" "2026-01-15";
                            row "inv-0001" "c2" 1200 "pending" "2026-02-01" ];
              trace := [] |} in
  let formData :=
    [("customerId", Str "c3"); ("amount", Str "7.5"); ("status", Str "paid")] in
  let table' :=
    invoices (snd (call (Strict.updateInvoice "inv-0001" no_state formData)
                     accepting w)) in
  table' !! 0%nat = Some (row "inv-0000" "c1" 4999 "pending" "2026-01-15") /\
  table' !! 1%nat = Some (row "inv-0001" "c3" 750 "paid" "2026-02-01") /\
  table' !! 2%nat = None.
Proof.
  intros row w formData table'.
  assert (Hform : strict_form formData "c3" (StringToNumber "7.5") "paid").
  { unfold strict_form. split; [reflexivity |]. split; [reflexivity |].
    split; [vm_compute; reflexivity |]. split; [reflexivity | right; reflexivity]. }
  pose proof (proj1 (updateInvoice_rewrites_row accepting w "inv-0001" no_state
                       formData "c3" (StringToNumber "7.5") "paid" eq_refl) Hform)
    as H.
  unfold table'.
  split; [exact (H 0%nat) |]. split; [| exact (H 2%nat)].
  rewrite (H 1%nat). vm_compute. reflexivity.
Defined.

(** X7: an accepted [updateInvoice] for an id that no row has changes
    nothing in the table, and still invalidates the listing and redirects,
    in both versions and for every form the version accepts: the caller
    cannot tell it from an update that found its row. *)
Theorem updateInvoice_absent_id :
  forall env w id prevState formData c n s,
    db_error env (UPDATE c (mul n (of_Z 100)) s id) (invoices w) = None ->
    (forall r, In r (invoices w) -> Server.id r <> id) ->
    let w' :=
      {| invoices := invoices w;
         trace := (trace w ++ [Query (UPDATE c (mul n (of_Z 100)) s id);
                               Revalidate "/dashboard/invoices";
                               Navigate "/dashboard/invoices"])%list |} in
    (strict_form formData c n s ->
     call (Strict.updateInvoice id prevState formData) env w =
       (Rejected (NEXT_REDIRECT "/dashboard/invoices"), w')) /\
    (permissive_form formData c n s ->
     call (Permissive.updateInvoice id formData) env w =
       (Rejected (NEXT_REDIRECT "/dashboard/invoices"), w')).
Proof.
  intros env w id prevState formData c n s Hdb Habsent w'.
  assert (Hw : completed env (UPDATE c (mul n (of_Z 100)) s id) w = w').
  { unfold completed, written, emit, w'. cbn [trace invoices].
    rewrite (exec_update_absent _ _ _ _ _ _ Habsent), <- !app_assoc.
    reflexivity. }
  split; intros Hform.
  - rewrite (strict_updateInvoice_accepted env w id prevState formData c n s
               Hform Hdb), Hw.
    reflexivity.
  - rewrite (permissive_updateInvoice_accepted env w id formData c n s
               Hform Hdb), Hw.
    reflexivity.
Qed.

(** An update sent for an id that the table does not hold: by the strict
    version, and by the permissive version with an amount of 0, which only
    that version accepts. *)
Lemma updateInvoice_absent_id_witness :
  let w := {| invoices :=
                [ {| Server.id := "inv-0000"; customer_id := "c1";
                     Server.amount := of_Z 4999; Server.status := "pending";
                     Server.date := "2026-01-15" |} ];
              trace := [] |} in
  let formData :=
    [("customerId", Str "c3"); ("amount", Str "7.5"); ("status", Str "paid")] in
  let formData0 :=
    [("customerId", Str "c3"); ("amount", Str "0"); ("status", Str "paid")] in
  call (Strict.updateInvoice "inv-0042" no_state formData) accepting w =
  (Rejected (NEXT_REDIRECT "/dashboard/invoices"),
   {| invoices := invoices w;
      trace := [Query (UPDATE "c3" (of_Z 750) "paid" "inv-0042");
                Revalidate "/dashboard/invoices";
                Navigate "/dashboard/invoices"] |}) /\
  call (Permissive.updateInvoice "inv-0042" formData0) accepting w =
  (Rejected (NEXT_REDIRECT "/dashboard/invoices"),
   {| invoices := invoices w;
      trace := [Query (UPDATE "c3" (of_Z 0) "paid" "inv-0042");
                Revalidate "/dashboard/invoices";
                Navigate "/dashboard/invoices"] |}).
Proof.
  intros w formData formData0.
  assert (Habsent : forall r, In r (invoices w) -> Server.id r <> "inv-0042").
  { intros r [<- | []]. discriminate. }
  split.
  - refine (proj1 (updateInvoice_absent_id accepting w "inv-0042" no_state
                     formData "c3" (StringToNumber "7.5") "paid" eq_refl Habsent)
              _).
    unfold strict_form. split; [reflexivity |]. split; [reflexivity |].
    split; [vm_compute; reflexivity |]. split; [reflexivity | right; reflexivity].
  - refine (proj2 (updateInvoice_absent_id accepting w "inv-0042" no_state
                     formData0 "c3" (StringToNumber "0") "paid" eq_refl Habsent)
              _).
    unfold permissive_form. split; [reflexivity |]. split; [reflexivity |].
    split; [reflexivity |]. split; [reflexivity | right; reflexivity].
Defined.

(** ** One call after another *)

Lemma deleteInvoice_accepted env w id :
  db_error env (DELETE id) (invoices w) = None ->
  call (Strict.deleteInvoice id) env w =
  (Fulfilled None,
   {| invoices := exec (new_id env) (DELETE id) (invoices w);
      trace := (trace w ++ [Query (DELETE id); Revalidate listing])%list |}).
Proof.
  intros Hdb. rewrite deleteInvoice_run, Hdb. f_equal.
  unfold written, emit. cbn [trace invoices]. rewrite <- app_assoc. reflexivity.
Qed.

Lemma exec_delete_twice fresh i table :
  exec fresh (DELETE i) (exec fresh (DELETE i) table) = exec fresh (DELETE i) table.
Proof.
  apply exec_delete_absent. intros r Hr. apply exec_delete_In in Hr as [_ Hne].
  exact Hne.
Qed.

Lemma exec_insert_delete fresh c a s d table :
  (forall r, In r table -> Server.id r <> fresh table) ->
  exec fresh (DELETE (fresh table)) (exec fresh (INSERT c a s d) table) = table.
Proof.
  intros Hfresh. cbn [exec]. rewrite List.filter_app. cbn [List.filter Server.id].
  rewrite String.eqb_refl. cbn [negb]. rewrite app_nil_r.
  apply (exec_delete_absent fresh). exact Hfresh.
Qed.

(** X8: deleting the same id twice is the same, for the table, as deleting
    it once; the second call, finding no row, still sends its DELETE and
    invalidates the listing again. *)
Theorem deleteInvoice_twice :
  forall env w id,
    let r1 := call (Strict.deleteInvoice id) env w in
    let r2 := call (Strict.deleteInvoice id) env (snd r1) in
    db_error env (DELETE id) (invoices w) = None ->
    db_error env (DELETE id) (invoices (snd r1)) = None ->
    invoices (snd r2) = invoices (snd r1) /\
    (forall r, In r (invoices (snd r2)) -> Server.id r <> id) /\
    fst r2 = Fulfilled None /\
    effects_since w (snd r2) =
      [Query (DELETE id); Revalidate "/dashboard/invoices";
       Query (DELETE id); Revalidate "/dashboard/invoices"] /\
    call (Permissive.deleteInvoice id) env
      (snd (call (Permissive.deleteInvoice id) env w)) = r2.
Proof.
  intros env w id r1 r2 Hdb1 Hdb2. subst r2.
  unfold r1 in *. clear r1.
  change (Permissive.deleteInvoice id) with (Strict.deleteInvoice id).
  rewrite (deleteInvoice_accepted env w id Hdb1) in *. cbn [snd] in *.
  rewrite (deleteInvoice_accepted env _ id Hdb2). cbn [fst snd invoices trace].
  split; [apply exec_delete_twice |].
  split.
  { intros r Hr. rewrite exec_delete_twice in Hr.
    apply exec_delete_In in Hr as [_ Hne]. exact Hne. }
  split; [reflexivity |]. split; [| reflexivity].
  apply effects_since_app. cbn [trace]. rewrite <- app_assoc. reflexivity.
Qed.

(** Two deletions of the only row. *)
Lemma deleteInvoice_twice_witness :
  let w := {| invoices :=
                [ {| Server.id := "inv-0000"; customer_id := "c1";
                     Server.amount := of_Z 4999; Server.status := "pending";
                     Server.date := "2026-01-15" |} ];
              trace := [] |} in
  let r1 := call (Strict.deleteInvoice "inv-0000") accepting w in
  let r2 := call (Strict.deleteInvoice "inv-0000") accepting (snd r1) in
  invoices (snd r1) = [] /\ invoices (snd r2) = [] /\ fst r2 = Fulfilled None.
Proof.
  intros w r1 r2.
  destruct (deleteInvoice_twice accepting w "inv-0000" eq_refl eq_refl)
    as (Hsame & _ & Hout & _).
  split; [reflexivity |]. split; [| exact Hout].
  fold r1 in Hsame. fold r2 in Hsame. rewrite Hsame. reflexivity.
Defined.

(** X9: creating an invoice and then deleting the id the store gave it
    restores the table, provided that id was not already in use. *)
Theorem createInvoice_then_deleteInvoice :
  forall env w prevState formData c n s,
    strict_form formData c n s ->
    let fresh := new_id env (invoices w) in
    let r1 := call (Strict.createInvoice prevState formData) env w in
    let r2 := call (Strict.deleteInvoice fresh) env (snd r1) in
    (forall r, In r (invoices w) -> Server.id r <> fresh) ->
    db_error env (INSERT c (mul n (of_Z 100)) s (date_string (now env)))
      (invoices w) = None ->
    db_error env (DELETE fresh) (invoices (snd r1)) = None ->
    length (invoices (snd r1)) = S (length (invoices w)) /\
    invoices (snd r2) = invoices w /\
    fst r2 = Fulfilled None.
Proof.
  intros env w prevState formData c n s Hform fresh r1 r2 Hfresh Hins Hdel.
  subst r2. unfold r1 in *. clear r1.
  rewrite (strict_createInvoice_accepted env w prevState formData c n s Hform Hins)
    in *.
  cbn [snd] in *. rewrite invoices_completed, invoices_logged in *.
  split.
  { cbn [exec]. rewrite length_app. cbn [length]. lia. }
  rewrite deleteInvoice_run.
  assert (Hdel' : db_error env (DELETE fresh)
                    (invoices (completed env
                       (INSERT c (mul n (of_Z 100)) s (date_string (now env)))
                       (logged formData w))) = None) by exact Hdel.
  rewrite Hdel'. cbn [fst snd].
  split; [| reflexivity].
  unfold written, emit. cbn [invoices].
  apply (exec_insert_delete (new_id env)). exact Hfresh.
Qed.

(** The scenario of the specification, created and then deleted. *)
Lemma createInvoice_then_deleteInvoice_witness :
  let formData :=
    [("customerId", Str "c1"); ("amount", Str "49.99"); ("status", Str "pending")] in
  let r1 := call (Strict.createInvoice no_state formData) accepting empty_world in
  let r2 := call (Strict.deleteInvoice "inv-0000") accepting (snd r1) in
  length (invoices (snd r1)) = 1%nat /\ invoices (snd r2) = [] /\
  fst r2 = Fulfilled None.
Proof.
  intros formData.
  refine (createInvoice_then_deleteInvoice accepting empty_world no_state formData
            "c1" (StringToNumber "49.99") "pending" _ _ _ _).
  - unfold strict_form. split; [reflexivity |]. split; [reflexivity |].
    split; [vm_compute; reflexivity |]. split; [reflexivity | left; reflexivity].
  - intros r [].
  - reflexivity.
  - reflexivity.
Defined.

(** ** Invariants of the table *)

Lemma exec_statuses_valid fresh q table :
  statuses_valid table ->
  match q with
  | INSERT _ _ s _ | UPDATE _ _ s _ => s = "pending" \/ s = "paid"
  | DELETE _ => True
  end ->
  statuses_valid (exec fresh q table).
Proof.
  unfold statuses_valid. intros Hvalid Hq. destruct q as [c a s d | c a s i | i];
    cbn [exec].
  - apply Forall_app_2; [exact Hvalid |]. constructor; [exact Hq | constructor].
  - induction Hvalid as [| r table Hr _ IH]; cbn [map]; constructor; [| exact IH].
    destruct (String.eqb (Server.id r) i); [exact Hq | exact Hr].
  - induction Hvalid as [| r table Hr _ IH]; cbn [List.filter]; [constructor |].
    destruct (negb (String.eqb (Server.id r) i)); [constructor |]; assumption.
Qed.

Lemma exec_ids_unique fresh q table :
  ids_unique table ->
  match q with
  | INSERT _ _ _ _ => ~ In (fresh table) (map Server.id table)
  | _ => True
  end ->
  ids_unique (exec fresh q table).
Proof.
  unfold ids_unique. intros Huniq Hfresh.
  destruct q as [c a s d | c a s i | i]; cbn [exec].
  - rewrite map_app. cbn [map Server.id].
    apply NoDup_app.
    split; [exact Huniq |]. split; [| apply NoDup_singleton].
    intros x Hx Hx'. apply list_elem_of_singleton in Hx'. subst x.
    apply Hfresh. apply list_elem_of_In. exact Hx.
  - assert (E : map Server.id
                  (map (fun r => if String.eqb (Server.id r) i
                                 then set_columns c a s r else r) table) =
                map Server.id table).
    { clear. induction table as [| r table IH]; [reflexivity |].
      cbn [map]. rewrite IH. destruct (String.eqb (Server.id r) i); reflexivity. }
    rewrite E. exact Huniq.
  - clear Hfresh. induction table as [| r table IH]; [exact Huniq |].
    cbn [map] in Huniq. apply NoDup_cons in Huniq as [Hr Htable].
    cbn [List.filter].
    destruct (negb (String.eqb (Server.id r) i)); [| apply IH, Htable].
    cbn [map]. apply NoDup_cons. split; [| apply IH, Htable].
    intros Hin. apply Hr. apply list_elem_of_In in Hin. apply list_elem_of_In.
    apply in_map_iff in Hin as (r' & E & Hr').
    apply filter_In in Hr' as [Hr' _]. apply in_map_iff. eauto.
Qed.

Lemma strict_table_step env w id prevState formData :
  table_step Strict.CreateInvoice env w
    (snd (call (Strict.createInvoice prevState formData) env w)) formData /\
  table_step Strict.CreateInvoice env w
    (snd (call (Strict.updateInvoice id prevState formData) env w)) formData.
Proof.
  unfold table_step.
  rewrite strict_createInvoice_run, strict_updateInvoice_run,
    strict_UpdateInvoice_eq.
  destruct (safeParse Strict.CreateInvoice (rawFormData formData))
    as [data | error]; cbv zeta; [| split; left; reflexivity].
  split.
  - destruct (db_error env (insert_of (now env) data) (invoices w));
      [left; reflexivity |].
    right. exists data, (insert_of (now env) data). eauto.
  - destruct (db_error env (update_of id data) (invoices w));
      [left; reflexivity |].
    right. exists data, (update_of id data). eauto.
Qed.

Lemma permissive_table_step env w id formData :
  table_step Permissive.CreateInvoice env w
    (snd (call (Permissive.createInvoice formData) env w)) formData /\
  table_step Permissive.CreateInvoice env w
    (snd (call (Permissive.updateInvoice id formData) env w)) formData.
Proof.
  unfold table_step.
  rewrite permissive_createInvoice_run, permissive_updateInvoice_run,
    permissive_UpdateInvoice_eq.
  destruct (safeParse Permissive.CreateInvoice (rawFormData formData))
    as [data | error]; cbv zeta; [| split; left; reflexivity].
  split.
  - destruct (db_error env (insert_of (now env) data) (invoices w));
      [left; reflexivity |].
    right. exists data, (insert_of (now env) data). eauto.
  - destruct (db_error env (update_of id data) (invoices w));
      [left; reflexivity |].
    right. exists data, (update_of id data). eauto.
Qed.

Lemma delete_table_step env w id :
  invoices (snd (call (Strict.deleteInvoice id) env w)) = invoices w \/
  invoices (snd (call (Strict.deleteInvoice id) env w)) =
    exec (new_id env) (DELETE id) (invoices w).
Proof.
  rewrite deleteInvoice_run.
  destruct (db_error env (DELETE id) (invoices w)); [left | right]; reflexivity.
Qed.

(** X10: no handler of either version ever stores a status other than
    pending or paid: if every row of the table has one of the two, so has
    every row of the table after any call, whatever the form holds and
    whatever the database answers. *)
Theorem handlers_keep_statuses_valid :
  forall env w id prevState formData,
    statuses_valid (invoices w) ->
    statuses_valid
      (invoices (snd (call (Strict.createInvoice prevState formData) env w))) /\
    statuses_valid
      (invoices (snd (call (Strict.updateInvoice id prevState formData) env w))) /\
    statuses_valid (invoices (snd (call (Strict.deleteInvoice id) env w))) /\
    statuses_valid (invoices (snd (call (Permissive.createInvoice formData) env w))) /\
    statuses_valid
      (invoices (snd (call (Permissive.updateInvoice id formData) env w))) /\
    statuses_valid (invoices (snd (call (Permissive.deleteInvoice id) env w))).
Proof.
  intros env w id prevState formData Hvalid.
  assert (Hstep : forall schema w',
             (forall data, safeParse schema (rawFormData formData) =
                           SafeParseSuccess data ->
                           d_status data = "pending" \/ d_status data = "paid") ->
             table_step schema env w w' formData ->
             statuses_valid (invoices w')).
  { intros schema w' Hschema [-> | (data & q & Hparse & Hq & ->)];
      [exact Hvalid |].
    apply exec_statuses_valid; [exact Hvalid |].
    destruct Hq as [-> | [i ->]]; cbn; apply (Hschema data Hparse). }
  assert (Hdelete : statuses_valid
                      (invoices (snd (call (Strict.deleteInvoice id) env w)))).
  { destruct (delete_table_step env w id) as [-> | ->]; [exact Hvalid |].
    apply exec_statuses_valid; [exact Hvalid | exact I]. }
  assert (Hs : forall data,
             safeParse Strict.CreateInvoice (rawFormData formData) =
             SafeParseSuccess data ->
             d_status data = "pending" \/ d_status data = "paid").
  { intros data H. apply strict_safeParse_inv in H as (_ & _ & _ & _ & H).
    apply includes_status, H. }
  assert (Hp : forall data,
             safeParse Permissive.CreateInvoice (rawFormData formData) =
             SafeParseSuccess data ->
             d_status data = "pending" \/ d_status data = "paid").
  { intros data H. apply permissive_safeParse_inv in H as (_ & _ & _ & _ & H).
    apply includes_status, H. }
  destruct (strict_table_step env w id prevState formData) as [Hsc Hsu].
  destruct (permissive_table_step env w id formData) as [Hpc Hpu].
  repeat split; eauto.
Qed.

(** A status outside the enum is refused, so the table stays valid. *)
Lemma handlers_keep_statuses_valid_witness :
  let w := {| invoices :=
                [ {| Server.id := "inv-0000"; customer_id := "c1";
                     Server.amount := of_Z 4999; Server.status := "pending";
                     Server.date := "2026-01-15" |} ];
              trace := [] |} in
  let formData :=
    [("customerId", Str "c1"); ("amount", Str "5"); ("status", Str "draft")] in
  statuses_valid
    (invoices (snd (call (Permissive.updateInvoice "inv-0000" formData)
                      accepting w))).
Proof.
  intros w formData.
  refine (proj1 (proj2 (proj2 (proj2 (proj2
            (handlers_keep_statuses_valid accepting w "inv-0000" no_state
               formData _)))))).
  constructor; [left; reflexivity | constructor].
Defined.

(** X11: ids stay unique. [updateInvoice] and [deleteInvoice] never create
    a second row with an id already present, and neither does
    [createInvoice] as long as the store hands out an id that is not in
    use. *)
Theorem handlers_keep_ids_unique :
  forall env w id prevState formData,
    ids_unique (invoices w) ->
    (~ In (new_id env (invoices w)) (map Server.id (invoices w)) ->
     ids_unique
       (invoices (snd (call (Strict.createInvoice prevState formData) env w))) /\
     ids_unique
       (invoices (snd (call (Permissive.createInvoice formData) env w)))) /\
    ids_unique
      (invoices (snd (call (Strict.updateInvoice id prevState formData) env w))) /\
    ids_unique (invoices (snd (call (Permissive.updateInvoice id formData) env w))) /\
    ids_unique (invoices (snd (call (Strict.deleteInvoice id) env w))) /\
    ids_unique (invoices (snd (call (Permissive.deleteInvoice id) env w))).
Proof.
  intros env w id prevState formData Huniq.
  assert (Hdelete : ids_unique
                      (invoices (snd (call (Strict.deleteInvoice id) env w)))).
  { destruct (delete_table_step env w id) as [-> | ->]; [exact Huniq |].
    apply exec_ids_unique; [exact Huniq | exact I]. }
  destruct (strict_table_step env w id prevState formData) as [Hsc _].
  destruct (permissive_table_step env w id formData) as [Hpc _].
  split; [| split; [| split; [| split; [exact Hdelete | exact Hdelete]]]].
  - intros Hfresh. split.
    + destruct Hsc as [-> | (data & q & _ & Hq & ->)]; [exact Huniq |].
      apply exec_ids_unique; [exact Huniq |].
      destruct Hq as [-> | [i ->]]; [exact Hfresh | exact I].
    + destruct Hpc as [-> | (data & q & _ & Hq & ->)]; [exact Huniq |].
      apply exec_ids_unique; [exact Huniq |].
      destruct Hq as [-> | [i ->]]; [exact Hfresh | exact I].
  - rewrite strict_updateInvoice_run.
    destruct (safeParse Strict.UpdateInvoice (rawFormData formData))
      as [data | error]; cbv zeta; [| exact Huniq].
    destruct (db_error env (update_of id data) (invoices w)); [exact Huniq |].
    cbn [snd]. rewrite invoices_completed.
    apply exec_ids_unique; [exact Huniq | exact I].
  - rewrite permissive_updateInvoice_run.
    destruct (safeParse Permissive.UpdateInvoice (rawFormData formData))
      as [data | error]; cbv zeta; [| exact Huniq].
    destruct (db_error env (update_of id data) (invoices w)); [exact Huniq |].
    cbn [snd]. rewrite invoices_completed.
    apply exec_ids_unique; [exact Huniq | exact I].
Qed.

(** A store that numbers its rows, and a table that holds one. *)
Lemma handlers_keep_ids_unique_witness :
  let w := {| invoices :=
                [ {| Server.id := "inv-0000"; customer_id := "c1";
                     Server.amount := of_Z 4999; Server.status := "pending";
                     Server.date := "2026-01-15" |} ];
              trace := [] |} in
  let formData :=
    [("customerId", Str "c2"); ("amount", Str "5"); ("status", Str "paid")] in
  let w' := snd (call (Strict.createInvoice no_state formData) accepting w) in
  ids_unique (invoices w') /\ map Server.id (invoices w') = ["inv-0000"; "inv-0001"].
Proof.
  intros w formData w'. split; [| vm_compute; reflexivity].
  refine (proj1 (proj1 (handlers_keep_ids_unique accepting w "inv-0000" no_state
                          formData _) _)).
  - constructor; [intros H; inversion H | constructor].
  - intros [H | []]. discriminate H.
Defined.

(** ** The date column *)

Lemma civil_from_days_year_range (day : Z) :
  -719528 <= day <= 2932896 ->
  let '(y, m, d) := civil_from_days day in 0 <= y <= 9999.
Proof.
  intros Hday. civil_steps day.
  assert (Hera : -1 <= era <= 24)
    by (subst era z; Z.to_euclidean_division_equations; lia).
  destruct (mp <? 10) eqn:E; [apply Z.ltb_lt in E | apply Z.ltb_ge in E].
  - destruct (mp + 3 <=? 2) eqn:E2; [apply Z.leb_le in E2; lia |].
    subst mp doy yoe doe era z. Z.to_euclidean_division_equations; lia.
  - destruct (mp - 9 <=? 2) eqn:E2; [| apply Z.leb_gt in E2; lia].
    subst mp doy yoe doe era z. Z.to_euclidean_division_equations; lia.
Qed.

Lemma digit_char_is_digit (d : Z) : is_digit (digit_char d) = true.
Proof.
  unfold digit_char.
  assert (H : 0 <= d mod 10 < 10) by (apply Z.mod_pos_bound; lia).
  assert (E : d mod 10 = 0 \/ d mod 10 = 1 \/ d mod 10 = 2 \/ d mod 10 = 3 \/
              d mod 10 = 4 \/ d mod 10 = 5 \/ d mod 10 = 6 \/ d mod 10 = 7 \/
              d mod 10 = 8 \/ d mod 10 = 9) by lia.
  repeat (destruct E as [E | E]; [rewrite E; reflexivity |]).
  rewrite E. reflexivity.
Qed.

(** Between the years 0 and 9999 the date part has the shape YYYY-MM-DD. *)
Lemma date_string_shape (t : Z) :
  -62167219200000 <= t <= 253402300799999 ->
  iso_date_shape (date_string t).
Proof.
  intros Ht.
  assert (Hday : -719528 <= t / msPerDay <= 2932896)
    by (unfold msPerDay; Z.to_euclidean_division_equations; lia).
  pose proof (civil_from_days_year_range _ Hday) as Hy.
  unfold date_string. destruct (civil_from_days (t / msPerDay)) as [[y m] d].
  unfold year_string.
  assert (E : (0 <=? y) && (y <=? 9999) = true)
    by (apply andb_true_iff; split; apply Z.leb_le; lia).
  rewrite E. cbn [pad append].
  unfold iso_date_shape. split; [reflexivity |]. split; [reflexivity |].
  split; [reflexivity |].
  intros i c Hget H4 H7.
  do 10 (destruct i as [| i];
         [cbn [String.get] in Hget; try congruence;
          injection Hget as <-; apply digit_char_is_digit |]).
  cbn [String.get] in Hget. destruct i; discriminate Hget.
Qed.

Lemma strict_createInvoice_queries env w prevState formData q :
  In (Query q)
    (effects_since w (snd (call (Strict.createInvoice prevState formData) env w))) ->
  exists data, q = insert_of (now env) data.
Proof.
  rewrite strict_createInvoice_run.
  destruct (safeParse Strict.CreateInvoice (rawFormData formData))
    as [data | error]; cbv zeta.
  - destruct (db_error env (insert_of (now env) data) (invoices w));
      cbn [snd]; list_effects; intros Hin; cbn [In] in Hin.
    + destruct Hin as [Hin | [Hin | [Hin | []]]]; try discriminate Hin.
      injection Hin as <-. eauto.
    + destruct Hin as [Hin | [Hin | [Hin | [Hin | [Hin | []]]]]];
        try discriminate Hin.
      injection Hin as <-. eauto.
  - cbn [snd]. list_effects. intros Hin. cbn [In] in Hin.
    destruct Hin as [Hin | [Hin | []]]; discriminate Hin.
Qed.

Lemma permissive_createInvoice_queries env w formData q :
  In (Query q)
    (effects_since w (snd (call (Permissive.createInvoice formData) env w))) ->
  exists data, q = insert_of (now env) data.
Proof.
  rewrite permissive_createInvoice_run.
  destruct (safeParse Permissive.CreateInvoice (rawFormData formData))
    as [data | error]; cbv zeta.
  - destruct (db_error env (insert_of (now env) data) (invoices w));
      cbn [snd]; list_effects; intros Hin; cbn [In] in Hin.
    + destruct Hin as [Hin | [Hin | [Hin | []]]]; try discriminate Hin.
      injection Hin as <-. eauto.
    + destruct Hin as [Hin | [Hin | [Hin | [Hin | [Hin | []]]]]];
        try discriminate Hin.
      injection Hin as <-. eauto.
  - cbn [snd]. list_effects. intros Hin. cbn [In] in Hin.
    destruct Hin as [Hin | [Hin | []]]; discriminate Hin.
Qed.

(** X12: while the clock is between the years 0 and 9999, every statement
    [createInvoice] sends, in either version, is an INSERT whose date
    parameter has the shape YYYY-MM-DD: ten characters, hyphens in the
    fifth and eighth place and digits elsewhere, whatever the form holds. *)
Theorem createInvoice_date_shape :
  forall env w prevState formData q,
    -62167219200000 <= now env <= 253402300799999 ->
    In (Query q)
      (effects_since w
         (snd (call (Strict.createInvoice prevState formData) env w))) \/
    In (Query q)
      (effects_since w (snd (call (Permissive.createInvoice formData) env w))) ->
    exists c a s d, q = INSERT c a s d /\ iso_date_shape d.
Proof.
  intros env w prevState formData q Hnow Hin.
  assert (H : exists data, q = insert_of (now env) data).
  { destruct Hin as [Hin | Hin];
      [exact (strict_createInvoice_queries _ _ _ _ _ Hin)
      | exact (permissive_createInvoice_queries _ _ _ _ Hin)]. }
  destruct H as [data ->]. unfold insert_of.
  do 4 eexists. split; [reflexivity |]. apply date_string_shape, Hnow.
Qed.

(** The INSERT of the first scenario carries the date 2026-11-02. *)
Lemma createInvoice_date_shape_witness :
  iso_date_shape "2026-11-02".
Proof.
  destruct (createInvoice_date_shape accepting empty_world no_state
              [("customerId", Str "c1"); ("amount", Str "49.99");
               ("status", Str "pending")]
              (INSERT "c1" (of_Z 4999) "pending" "2026-11-02"))
    as (c & a & s & d & E & Hshape).
  - cbn [now accepting]. lia.
  - left. vm_compute. right. right. left. reflexivity.
  - injection E as _ _ _ <-. exact Hshape.
Defined.

(** ** The calls a handler makes *)

Lemma strict_refused formData error :
  safeParse Strict.CreateInvoice (rawFormData formData) = SafeParseError error ->
  ~ exists c n s, strict_form formData c n s.
Proof.
  intros H (c & n & s & Hform). apply strict_form_parse in Hform.
  rewrite H in Hform. discriminate Hform.
Qed.

Lemma permissive_refused formData error :
  safeParse Permissive.CreateInvoice (rawFormData formData) = SafeParseError error ->
  ~ exists c n s, permissive_form formData c n s.
Proof.
  intros H (c & n & s & Hform). apply permissive_form_parse in Hform.
  rewrite H in Hform. discriminate Hform.
Qed.

(** The calls of a run that starts by [before] and, for an accepted
    form, goes on with the statement built from the parsed data. *)
Lemma call_sequence_of_run {R} env w (accepted : string -> number -> string -> Prop)
  (parsed : SafeParseReturnType) statement on_error before
  (run : SafeParseReturnType -> Outcome R * World) :
  (forall c n s,
      accepted c n s <->
      parsed = SafeParseSuccess {| d_customerId := c; d_amount := n; d_status := s |}) ->
  (forall error, parsed = SafeParseError error ->
                 effects_since w (snd (run parsed)) = before) ->
  (forall c n s,
      parsed = SafeParseSuccess {| d_customerId := c; d_amount := n; d_status := s |} ->
      effects_since w (snd (run parsed)) =
      (before ++
       match db_error env (statement c (mul n (of_Z 100)) s) (invoices w) with
       | Some msg => on_error (statement c (mul n (of_Z 100)) s) msg
       | None => after_write (statement c (mul n (of_Z 100)) s)
       end)%list) ->
  call_sequence env w accepted before statement on_error
    (effects_since w (snd (run parsed))).
Proof.
  intros Hacc Herr Hok. unfold call_sequence. split.
  - intros Hnone. destruct parsed as [[c n s] | error] eqn:E.
    + exfalso. apply Hnone. exists c, n, s. apply Hacc. reflexivity.
    + apply (Herr error). reflexivity.
  - intros c n s H. apply Hacc in H. cbv zeta. apply Hok, H.
Qed.

(** X13: the calls each handler makes, case by case. [createInvoice] first
    logs the raw form values and the type of the amount, whatever they are;
    for a form its schema refuses it makes no other call; for a form it
    accepts it sends the INSERT built from the form, followed by nothing
    when the database refuses it and by the invalidation of the listing and
    the redirect when the database accepts it. [updateInvoice] makes no
    call at all for a refused form; for an accepted one it sends the UPDATE
    built from the form and keyed by its id, followed by nothing (in the
    strict version, by [console.error] of the database's error) on refusal
    and by the invalidation and the redirect on acceptance. [deleteInvoice]
    sends the DELETE for its id, followed by the invalidation unless the
    database refuses. These lists are exact: no handler makes any other
    call. *)
Theorem handlers_call_sequences :
  forall env w id prevState formData,
    let made (r : World) := effects_since w r in
    let insert c a s := INSERT c a s (date_string (now env)) in
    let update c a s := UPDATE c a s id in
    call_sequence env w (strict_form formData) (create_logs formData) insert
      (fun q _ => [Query q])
      (made (snd (call (Strict.createInvoice prevState formData) env w))) /\
    call_sequence env w (permissive_form formData) (create_logs formData) insert
      (fun q _ => [Query q])
      (made (snd (call (Permissive.createInvoice formData) env w))) /\
    call_sequence env w (strict_form formData) [] update
      (fun q msg => [Query q; LogError (PostgresError msg)])
      (made (snd (call (Strict.updateInvoice id prevState formData) env w))) /\
    call_sequence env w (permissive_form formData) [] update
      (fun q _ => [Query q])
      (made (snd (call (Permissive.updateInvoice id formData) env w))) /\
    made (snd (call (Strict.deleteInvoice id) env w)) =
      Query (DELETE id) ::
      match db_error env (DELETE id) (invoices w) with
      | Some _ => []
      | None => [Revalidate "/dashboard/invoices"]
      end /\
    made (snd (call (Permissive.deleteInvoice id) env w)) =
      Query (DELETE id) ::
      match db_error env (DELETE id) (invoices w) with
      | Some _ => []
      | None => [Revalidate "/dashboard/invoices"]
      end.
Proof.
  intros env w id prevState formData. cbv zeta.
  assert (Hdelete :
            effects_since w (snd (call (Strict.deleteInvoice id) env w)) =
            Query (DELETE id) ::
            match db_error env (DELETE id) (invoices w) with
            | Some _ => []
            | None => [Revalidate "/dashboard/invoices"]
            end).
  { rewrite deleteInvoice_run.
    destruct (db_error env (DELETE id) (invoices w)); cbn [snd];
      apply effects_since_app; unfold written, emit; cbn [trace];
      rewrite <- ?app_assoc; reflexivity. }
  split; [| split; [| split; [| split; [| split; [exact Hdelete | exact Hdelete]]]]].
  - rewrite strict_createInvoice_run.
    apply (call_sequence_of_run env w (strict_form formData)
             (safeParse Strict.CreateInvoice (rawFormData formData))
             (fun c a s => INSERT c a s (date_string (now env)))
             (fun q _ => [Query q]) (create_logs formData)
             (fun parsed =>
                match parsed with
                | SafeParseSuccess data =>
                    let q := insert_of (now env) data in
                    match db_error env q (invoices w) with
                    | Some _ =>
                        (Fulfilled (Some create_failed),
                         emit (Query q) (logged formData w))
                    | None =>
                        (Rejected (NEXT_REDIRECT listing),
                         completed env q (logged formData w))
                    end
                | SafeParseError error =>
                    (Fulfilled
                       (Some {| errors := Some (fieldErrors error);
                                Server.message :=
                                  Some "Missing fields. Failed to create invoice." |}),
                     logged formData w)
                end)).
    + intros c n s. apply strict_form_parse.
    + intros error ->. cbn [snd]. list_effects. reflexivity.
    + intros c n s ->. cbv zeta. unfold insert_of.
      cbn [d_customerId d_amount d_status].
      destruct (db_error env
                  (INSERT c (mul n (of_Z 100)) s (date_string (now env)))
                  (invoices w));
        cbn [snd]; list_effects; reflexivity.
  - rewrite permissive_createInvoice_run.
    apply (call_sequence_of_run env w (permissive_form formData)
             (safeParse Permissive.CreateInvoice (rawFormData formData))
             (fun c a s => INSERT c a s (date_string (now env)))
             (fun q _ => [Query q]) (create_logs formData)
             (fun parsed =>
                match parsed with
                | SafeParseSuccess data =>
                    let q := insert_of (now env) data in
                    match db_error env q (invoices w) with
                    | Some msg =>
                        (Rejected (PostgresError msg),
                         emit (Query q) (logged formData w))
                    | None =>
                        (Rejected (NEXT_REDIRECT listing),
                         completed env q (logged formData w))
                    end
                | SafeParseError error =>
                    (Rejected (ZodError error), logged formData w)
                end)).
    + intros c n s. apply permissive_form_parse.
    + intros error ->. cbn [snd]. list_effects. reflexivity.
    + intros c n s ->. cbv zeta. unfold insert_of.
      cbn [d_customerId d_amount d_status].
      destruct (db_error env
                  (INSERT c (mul n (of_Z 100)) s (date_string (now env)))
                  (invoices w));
        cbn [snd]; list_effects; reflexivity.
  - rewrite strict_updateInvoice_run, strict_UpdateInvoice_eq.
    apply (call_sequence_of_run env w (strict_form formData)
             (safeParse Strict.CreateInvoice (rawFormData formData))
             (fun c a s => UPDATE c a s id)
             (fun q msg => [Query q; LogError (PostgresError msg)]) []
             (fun parsed =>
                match parsed with
                | SafeParseSuccess data =>
                    let q := update_of id data in
                    match db_error env q (invoices w) with
                    | Some msg =>
                        (Fulfilled (Some update_failed),
                         emit (LogError (PostgresError msg)) (emit (Query q) w))
                    | None => (Rejected (NEXT_REDIRECT listing), completed env q w)
                    end
                | SafeParseError error =>
                    (Fulfilled
                       (Some {| errors := Some (fieldErrors error);
                                Server.message :=
                                  Some "Missing fields. Failed to update invoice." |}),
                     w)
                end)).
    + intros c n s. apply strict_form_parse.
    + intros error ->. cbn [snd]. list_effects. reflexivity.
    + intros c n s ->. cbv zeta. unfold update_of.
      cbn [d_customerId d_amount d_status].
      destruct (db_error env (UPDATE c (mul n (of_Z 100)) s id) (invoices w));
        cbn [snd]; list_effects; reflexivity.
  - rewrite permissive_updateInvoice_run, permissive_UpdateInvoice_eq.
    apply (call_sequence_of_run env w (permissive_form formData)
             (safeParse Permissive.CreateInvoice (rawFormData formData))
             (fun c a s => UPDATE c a s id)
             (fun q _ => [Query q]) []
             (fun parsed =>
                match parsed with
                | SafeParseSuccess data =>
                    let q := update_of id data in
                    match db_error env q (invoices w) with
                    | Some msg => (Rejected (PostgresError msg), emit (Query q) w)
                    | None => (Rejected (NEXT_REDIRECT listing), completed env q w)
                    end
                | SafeParseError error => (Rejected (ZodError error), w)
                end)).
    + intros c n s. apply permissive_form_parse.
    + intros error ->. cbn [snd]. list_effects. reflexivity.
    + intros c n s ->. cbv zeta. unfold update_of.
      cbn [d_customerId d_amount d_status].
      destruct (db_error env (UPDATE c (mul n (of_Z 100)) s id) (invoices w));
        cbn [snd]; list_effects; reflexivity.
Qed.

(** The strict [updateInvoice] on a refused form, on an accepted form, and
    on an accepted form that the database refuses. *)
Lemma handlers_call_sequences_witness :
  let good :=
    [("customerId", Str "c3"); ("amount", Str "7.5"); ("status", Str "paid")] in
  let made env formData :=
    effects_since empty_world
      (snd (call (Strict.updateInvoice "inv-0000" no_state formData) env
              empty_world)) in
  let q := UPDATE "c3" (of_Z 750) "paid" "inv-0000" in
  made accepting [] = [] /\
  made accepting good =
    [Query q; Revalidate "/dashboard/invoices"; Navigate "/dashboard/invoices"] /\
  made (failing "timeout") good = [Query q; LogError (PostgresError "timeout")].
Proof.
  intros good made q.
  assert (Hgood : strict_form good "c3" (StringToNumber "7.5") "paid").
  { unfold strict_form. split; [reflexivity |]. split; [reflexivity |].
    split; [vm_compute; reflexivity |]. split; [reflexivity | right; reflexivity]. }
  split; [| split].
  - refine (proj1 (proj1 (proj2 (proj2
              (handlers_call_sequences accepting empty_world "inv-0000" no_state
                 [])))) _).
    intros (c & n & s & Hc & _). discriminate Hc.
  - pose proof (proj2 (proj1 (proj2 (proj2
                  (handlers_call_sequences accepting empty_world "inv-0000"
                     no_state good)))) _ _ _ Hgood) as H.
    exact H.
  - pose proof (proj2 (proj1 (proj2 (proj2
                  (handlers_call_sequences (failing "timeout") empty_world
                     "inv-0000" no_state good)))) _ _ _ Hgood) as H.
    exact H.
Defined.

(** ** The two versions side by side *)

(** X14: on every form the strict schema accepts, the strict handlers are
    the permissive ones with the database error caught. [createInvoice]
    leaves the same world in both versions; both redirect when the
    statement is accepted, and when it is refused the permissive version
    rejects with the database error where the strict one returns its
    generic message. The same holds for [updateInvoice], whose strict
    version in addition logs the error it catches. *)
Theorem strict_is_permissive_with_catch :
  forall env w id prevState formData c n s,
    strict_form formData c n s ->
    let sc := call (Strict.createInvoice prevState formData) env w in
    let pc := call (Permissive.createInvoice formData) env w in
    let su := call (Strict.updateInvoice id prevState formData) env w in
    let pu := call (Permissive.updateInvoice id formData) env w in
    snd sc = snd pc /\
    (fst pc = Rejected (NEXT_REDIRECT "/dashboard/invoices") /\
     fst sc = Rejected (NEXT_REDIRECT "/dashboard/invoices") \/
     exists msg,
       fst pc = Rejected (PostgresError msg) /\
       fst sc = Fulfilled
                  (Some {| errors := None;
                           Server.message :=
                             Some "Database Error: Failed to create invoice." |})) /\
    (fst pu = Rejected (NEXT_REDIRECT "/dashboard/invoices") /\
     fst su = Rejected (NEXT_REDIRECT "/dashboard/invoices") /\
     snd su = snd pu \/
     exists msg,
       fst pu = Rejected (PostgresError msg) /\
       fst su = Fulfilled
                  (Some {| errors := None;
                           Server.message :=
                             Some "Database Error: Failed to Update Invoice." |}) /\
       snd su = emit (LogError (PostgresError msg)) (snd pu)).
Proof.
  intros env w id prevState formData c n s Hform. cbv zeta.
  pose proof (strict_implies_permissive_form _ _ _ _ Hform) as Hform'.
  apply strict_form_parse in Hform. apply permissive_form_parse in Hform'.
  rewrite strict_createInvoice_run, permissive_createInvoice_run,
    strict_updateInvoice_run, permissive_updateInvoice_run,
    strict_UpdateInvoice_eq, permissive_UpdateInvoice_eq, Hform, Hform'.
  cbv zeta.
  destruct (db_error env (insert_of (now env) _) (invoices w)) as [msg |];
    destruct (db_error env (update_of id _) (invoices w)) as [msg' |];
    cbn [fst snd]; (split; [reflexivity |]); split; eauto.
Qed.

(** The first scenario against a database that refuses the connection. *)
Lemma strict_is_permissive_with_catch_witness :
  let formData :=
    [("customerId", Str "c1"); ("amount", Str "49.99"); ("status", Str "pending")] in
  let env := failing "connection refused" in
  snd (call (Strict.createInvoice no_state formData) env empty_world) =
  snd (call (Permissive.createInvoice formData) env empty_world) /\
  fst (call (Permissive.createInvoice formData) env empty_world) =
  Rejected (PostgresError "connection refused").
Proof.
  intros formData env. split; [| vm_compute; reflexivity].
  refine (proj1 (strict_is_permissive_with_catch env empty_world "inv-0000"
                   no_state formData "c1" (StringToNumber "49.99") "pending" _)).
  unfold strict_form. split; [reflexivity |]. split; [reflexivity |].
  split; [vm_compute; reflexivity |]. split; [reflexivity | left; reflexivity].
Defined.

Lemma exec_update_twice fresh c a s i table :
  exec fresh (UPDATE c a s i) (exec fresh (UPDATE c a s i) table) =
  exec fresh (UPDATE c a s i) table.
Proof.
  cbn [exec]. induction table as [| r table IH]; [reflexivity |].
  cbn [map]. rewrite IH. f_equal.
  destruct (String.eqb (Server.id r) i) eqn:E.
  - cbn [set_columns Server.id]. rewrite E. reflexivity.
  - rewrite E. reflexivity.
Qed.

(** X15: submitting the same accepted update twice leaves the table as the
    first submission left it; the second call sends its UPDATE,
    invalidates and redirects all the same. *)
Theorem updateInvoice_twice :
  forall env w id prevState formData c n s,
    strict_form formData c n s ->
    let q := UPDATE c (mul n (of_Z 100)) s id in
    let r1 := call (Strict.updateInvoice id prevState formData) env w in
    let r2 := call (Strict.updateInvoice id prevState formData) env (snd r1) in
    db_error env q (invoices w) = None ->
    db_error env q (invoices (snd r1)) = None ->
    invoices (snd r2) = invoices (snd r1) /\
    fst r2 = Rejected (NEXT_REDIRECT "/dashboard/invoices") /\
    effects_since (snd r1) (snd r2) = after_write q.
Proof.
  intros env w id prevState formData c n s Hform q r1 r2 Hdb1 Hdb2.
  subst r2. unfold r1 in *. clear r1.
  rewrite (strict_updateInvoice_accepted env w id prevState formData c n s
             Hform Hdb1) in *.
  cbn [snd] in *.
  rewrite (strict_updateInvoice_accepted env _ id prevState formData c n s
             Hform Hdb2).
  cbn [fst snd]. rewrite !invoices_completed.
  split; [apply exec_update_twice |]. split; [reflexivity |].
  apply effects_since_app. apply trace_completed.
Qed.

(** The same form submitted twice for the only row. *)
Lemma updateInvoice_twice_witness :
  let w := {| invoices :=
                [ {| Server.id := "inv-0000"; customer_id := "c1";
                     Server.amount := of_Z 4999; Server.status := "pending";
                     Server.date := "2026-01-15" |} ];
              trace := [] |} in
  let formData :=
    [("customerId", Str "c3"); ("amount", Str "7.5"); ("status", Str "paid")] in
  let r1 := call (Strict.updateInvoice "inv-0000" no_state formData) accepting w in
  let r2 := call (Strict.updateInvoice "inv-0000" no_state formData) accepting
              (snd r1) in
  invoices (snd r2) = invoices (snd r1) /\
  fst r2 = Rejected (NEXT_REDIRECT "/dashboard/invoices").
Proof.
  intros w formData.
  assert (Hform : strict_form formData "c3" (StringToNumber "7.5") "paid").
  { unfold strict_form. split; [reflexivity |]. split; [reflexivity |].
    split; [vm_compute; reflexivity |]. split; [reflexivity | right; reflexivity]. }
  destruct (updateInvoice_twice accepting w "inv-0000" no_state formData
              "c3" (StringToNumber "7.5") "paid" Hform eq_refl eq_refl)
    as (Hsame & Hout & _).
  split; [exact Hsame | exact Hout].
Defined.

(** ** Blank amounts and unread fields *)

Lemma trim_start_blank (n : nat) :
  forall s, (String.length s <= n)%nat -> blank s = true ->
            trim_start s = EmptyString.
Proof.
  induction n as [| n IH]; intros s Hlen;
    (destruct s as [| a r]; [reflexivity |]); cbn [String.length] in Hlen;
    [lia |].
  cbn [blank trim_start].
  destruct (is_white_space a); [apply IH; lia |].
  destruct r as [| b r2]; [discriminate |]. cbn [String.length] in Hlen.
  destruct (is_white_space2 a b); [apply IH; lia |].
  destruct r2 as [| c r3]; [discriminate |]. cbn [String.length] in Hlen.
  destruct (is_white_space3 a b c); [apply IH; lia | discriminate].
Qed.

Lemma trim_blank (s : string) : blank s = true -> trim s = EmptyString.
Proof.
  intros H. unfold trim.
  rewrite (trim_start_blank (String.length s) s (Nat.le_refl _) H).
  reflexivity.
Qed.

Lemma ToNumber_blank (v : value) :
  v = Null \/ (exists s, v = Str s /\ blank s = true) ->
  ToNumber v = zero false.
Proof.
  intros [-> | (s & -> & Hs)]; [reflexivity |].
  cbn [ToNumber]. unfold StringToNumber. rewrite (trim_blank s Hs). reflexivity.
Qed.

(** X16: an amount field that is missing, empty or made of white space
    (any of the white space JavaScript trims, not only that of ASCII) is
    coerced to 0. The strict handlers answer it with the greater-than-zero
    message (never with a message about a missing field) and send nothing;
    the permissive [createInvoice], given a customer and a status it
    accepts, stores a row with amount 0. *)
Theorem blank_amount_is_zero :
  forall env w id prevState formData,
    get formData "amount" = Null \/
    (exists a, get formData "amount" = Str a /\ blank a = true) ->
    (exists errs,
        fst (call (Strict.createInvoice prevState formData) env w) =
          Fulfilled
            (Some {| errors := Some errs;
                     Server.message :=
                       Some "Missing fields. Failed to create invoice." |}) /\
        errs !! "amount" = Some ["Please enter an amount greater than $0."]) /\
    (exists errs,
        fst (call (Strict.updateInvoice id prevState formData) env w) =
          Fulfilled
            (Some {| errors := Some errs;
                     Server.message :=
                       Some "Missing fields. Failed to update invoice." |}) /\
        errs !! "amount" = Some ["Please enter an amount greater than $0."]) /\
    (forall c s,
        get formData "customerId" = Str c ->
        get formData "status" = Str s ->
        s = "pending" \/ s = "paid" ->
        db_error env (INSERT c (of_Z 0) s (date_string (now env))) (invoices w)
          = None ->
        invoices (snd (call (Permissive.createInvoice formData) env w)) =
          (invoices w ++
           [ {| Server.id := new_id env (invoices w); customer_id := c;
                Server.amount := of_Z 0; Server.status := s;
                Server.date := date_string (now env) |} ])%list).
Proof.
  intros env w id prevState formData Hblank.
  pose proof (ToNumber_blank _ Hblank) as Hzero.
  assert (Hparse : exists error,
             safeParse Strict.CreateInvoice (rawFormData formData) =
               SafeParseError error /\
             fieldErrors error !! "amount" =
               Some ["Please enter an amount greater than $0."]).
  { destruct (strict_safeParse_amount (rawFormData formData)) as (error & H1 & H2).
    - right. cbn [rawFormData raw_amount]. rewrite Hzero. reflexivity.
    - exists error. split; [exact H1 |]. rewrite H2.
      cbn [rawFormData raw_amount]. rewrite Hzero. reflexivity. }
  destruct Hparse as (error & Hparse & Hmsg).
  split; [| split].
  - rewrite strict_createInvoice_run, Hparse. cbn [fst]. eauto.
  - rewrite strict_updateInvoice_run, strict_UpdateInvoice_eq, Hparse.
    cbn [fst]. eauto.
  - intros c s Hc Hs Hin Hdb.
    assert (Hform : permissive_form formData c (zero false) s).
    { unfold permissive_form. rewrite Hzero. auto. }
    assert (Hdb' : db_error env
                     (INSERT c (mul (zero false) (of_Z 100)) s
                        (date_string (now env))) (invoices w) = None) by exact Hdb.
    rewrite (permissive_createInvoice_accepted env w formData c (zero false) s
               Hform Hdb').
    reflexivity.
Qed.

(** An amount made of a space, a no-break space (U+00A0) and an
    ideographic space (U+3000). *)
Lemma blank_amount_is_zero_witness :
  let spaces := utf8 [32; 194; 160; 227; 128; 128] in
  let formData :=
    [("customerId", Str "c1"); ("amount", Str spaces); ("status", Str "paid")] in
  (exists errs,
      fst (call (Strict.createInvoice no_state formData) accepting empty_world) =
        Fulfilled
          (Some {| errors := Some errs;
                   Server.message :=
                     Some "Missing fields. Failed to create invoice." |}) /\
      errs !! "amount" = Some ["Please enter an amount greater than $0."]) /\
  map Server.amount
    (invoices (snd (call (Permissive.createInvoice formData) accepting
                      empty_world))) = [of_Z 0].
Proof.
  intros spaces formData.
  destruct (blank_amount_is_zero accepting empty_world "inv-0000" no_state
              formData) as (Hcreate & _ & Hperm).
  - right. exists spaces. split; reflexivity.
  - split; [exact Hcreate |].
    rewrite (Hperm "c1" "paid" eq_refl eq_refl (or_intror eq_refl) eq_refl).
    reflexivity.
Defined.

Lemma same_fields_raw formData formData' :
  same_fields formData formData' ->
  rawFormData formData = rawFormData formData' /\
  logged formData = logged formData'.
Proof.
  intros (Hc & Ha & Hs). unfold logged, rawFormData. rewrite Hc, Ha, Hs.
  split; reflexivity.
Qed.

(** X17: the handlers read the fields [customerId], [amount] and [status]
    and nothing else of the form: two forms that agree on these three, and
    differ in any other entry (an [id] or a [date] field, say, or later
    duplicates of the three), get the same answer and leave the same
    world. The id and the date of a row cannot be set from the form. *)
Theorem handlers_read_three_fields :
  forall env w id prevState formData formData',
    same_fields formData formData' ->
    call (Strict.createInvoice prevState formData) env w =
      call (Strict.createInvoice prevState formData') env w /\
    call (Strict.updateInvoice id prevState formData) env w =
      call (Strict.updateInvoice id prevState formData') env w /\
    call (Permissive.createInvoice formData) env w =
      call (Permissive.createInvoice formData') env w /\
    call (Permissive.updateInvoice id formData) env w =
      call (Permissive.updateInvoice id formData') env w.
Proof.
  intros env w id prevState formData formData' H.
  apply same_fields_raw in H as [Hraw Hlog].
  rewrite !strict_createInvoice_run, !strict_updateInvoice_run,
    !permissive_createInvoice_run, !permissive_updateInvoice_run.
  rewrite Hraw, Hlog. repeat split; reflexivity.
Qed.

(** A form that also carries an id, a date and a second amount. *)
Lemma handlers_read_three_fields_witness :
  let formData :=
    [("customerId", Str "c1"); ("amount", Str "49.99"); ("status", Str "pending")] in
  let formData' :=
    [("id", Str "inv-9999"); ("customerId", Str "c1"); ("date", Str "1999-01-01");
     ("amount", Str "49.99"); ("status", Str "pending"); ("amount", Str "1")] in
  call (Strict.createInvoice no_state formData') accepting empty_world =
  call (Strict.createInvoice no_state formData) accepting empty_world.
Proof.
  intros formData formData'. symmetry.
  refine (proj1 (handlers_read_three_fields accepting empty_world "inv-0000"
                   no_state formData formData' _)).
  unfold same_fields. repeat split; reflexivity.
Defined.

(** ** Whole amounts *)

Lemma number_eqb_eq (x y : number) : number_eqb x y = true -> x = y.
Proof.
  destruct x as [a | a | | a m e], y as [b | b | | b m' e']; cbn;
    try discriminate; try reflexivity.
  - intros H. apply Bool.eqb_prop in H. congruence.
  - intros H. apply Bool.eqb_prop in H. congruence.
  - intros H. apply andb_true_iff in H as [H He].
    apply andb_true_iff in H as [Ha Hm].
    apply Bool.eqb_prop in Ha. apply Pos.eqb_eq in Hm. apply Z.eqb_eq in He.
    congruence.
Qed.

Lemma whole_amounts_exact_spec (n : N) :
  whole_amounts_exact n = true ->
  forall k, 1 <= k <= Z.of_N n -> whole_amount_exact k = true.
Proof.
  unfold whole_amounts_exact. induction n as [| n IH] using N.peano_ind.
  - intros _ k Hk. lia.
  - rewrite N.recursion_succ; [| reflexivity | intros ? ? -> ? ? ->; reflexivity].
    intros H k Hk. apply andb_true_iff in H as [Hacc Hn].
    destruct (Z.eq_dec k (Z.of_N (N.succ n))) as [-> | Hne]; [exact Hn |].
    apply IH; [exact Hacc | lia].
Qed.

Lemma whole_amounts_checked : whole_amounts_exact 100000 = true.
Proof. vm_compute. reflexivity. Qed.

Lemma whole_amount_in_cents (k : Z) :
  1 <= k <= 100000 ->
  ltb (of_Z 0) (of_Z k) = true /\ mul (of_Z k) (of_Z 100) = of_Z (100 * k).
Proof.
  intros Hk.
  pose proof (whole_amounts_exact_spec 100000 whole_amounts_checked k Hk) as H.
  apply andb_true_iff in H as [Hpos Heq].
  split; [exact Hpos | apply number_eqb_eq, Heq].
Qed.

(** X18: for a whole amount between 1 and 100000, the conversion
    [amount * 100] is exact: the row either version of [createInvoice]
    stores holds the integer number of cents [100 * amount], so the lack of
    rounding only shows for amounts with a fractional part. *)
Theorem createInvoice_whole_amount :
  forall env w prevState formData c s k,
    get formData "customerId" = Str c ->
    ToNumber (get formData "amount") = of_Z k ->
    1 <= k <= 100000 ->
    get formData "status" = Str s ->
    s = "pending" \/ s = "paid" ->
    let row := {| Server.id := new_id env (invoices w); customer_id := c;
                  Server.amount := of_Z (100 * k); Server.status := s;
                  Server.date := date_string (now env) |} in
    db_error env (INSERT c (of_Z (100 * k)) s (date_string (now env)))
      (invoices w) = None ->
    invoices (snd (call (Strict.createInvoice prevState formData) env w)) =
      (invoices w ++ [row])%list /\
    invoices (snd (call (Permissive.createInvoice formData) env w)) =
      (invoices w ++ [row])%list.
Proof.
  intros env w prevState formData c s k Hc Ha Hk Hs Hin row Hdb.
  destruct (whole_amount_in_cents k Hk) as [Hpos Hmul].
  assert (Hform : strict_form formData c (of_Z k) s).
  { unfold strict_form. rewrite Ha. auto. }
  assert (Hdb' : db_error env
                   (INSERT c (mul (of_Z k) (of_Z 100)) s (date_string (now env)))
                   (invoices w) = None) by (rewrite Hmul; exact Hdb).
  rewrite (strict_createInvoice_accepted env w prevState formData c (of_Z k) s
             Hform Hdb').
  rewrite (permissive_createInvoice_accepted env w formData c (of_Z k) s
             (strict_implies_permissive_form _ _ _ _ Hform) Hdb').
  cbn [snd]. rewrite !invoices_completed, !invoices_logged. cbn [exec].
  rewrite Hmul. split; reflexivity.
Qed.

(** An invoice of 250 units: 25000 cents. *)
Lemma createInvoice_whole_amount_witness :
  let formData :=
    [("customerId", Str "c1"); ("amount", Str "250"); ("status", Str "paid")] in
  map Server.amount
    (invoices (snd (call (Strict.createInvoice no_state formData) accepting
                      empty_world))) = [of_Z 25000].
Proof.
  intros formData.
  rewrite (proj1 (createInvoice_whole_amount accepting empty_world no_state
                    formData "c1" "paid" 250 eq_refl eq_refl
                    (conj (Zle_bool_imp_le 1 250 eq_refl)
                          (Zle_bool_imp_le 250 100000 eq_refl))
                    eq_refl (or_intror eq_refl) eq_refl)).
  reflexivity.
Defined.
